(** * A caching proxy in front of VROOM: model and verification

    The proxy (server.js) answers [POST /] from a Redis cache keyed by an MD5
    digest of the request body, forwards to VROOM on a miss and caches
    200 answers for one hour; [GET /health] probes the two OSRM backends, the
    two VROOM profiles and Redis.

    The embedding follows the source: request and response bodies are JSON
    values, [makeKey] is the MD5 of [JSON.stringify], the asynchronous handlers
    are programs of a state-and-exception monad over a [world] that holds the
    Redis contents, the scripted behaviour of the network and the trace of the
    calls made.  A request is run as one atomic step, at one instant of the
    clock; the response is observed as the arguments of res.set, res.status
    and res.json. *)

From Stdlib Require Import ZArith NArith List Ascii String Lia.
From stdpp Require Import gmap strings list pretty.
Import ListNotations.
Open Scope Z_scope.

(** ** crypto.createHash("md5") *)

Module MD5.

Definition add32 (a b : Z) : Z := (a + b) mod 2 ^ 32.
Definition not32 (x : Z) : Z := Z.lxor x 0xffffffff.
Definition rotl32 (x n : Z) : Z :=
  Z.lor (Z.shiftl x n mod 2 ^ 32) (Z.shiftr x (32 - n)).

Definition K : list Z :=
  [ 0xd76aa478; 0xe8c7b756; 0x242070db; 0xc1bdceee;
    0xf57c0faf; 0x4787c62a; 0xa8304613; 0xfd469501;
    0x698098d8; 0x8b44f7af; 0xffff5bb1; 0x895cd7be;
    0x6b901122; 0xfd987193; 0xa679438e; 0x49b40821;
    0xf61e2562; 0xc040b340; 0x265e5a51; 0xe9b6c7aa;
    0xd62f105d; 0x02441453; 0xd8a1e681; 0xe7d3fbc8;
    0x21e1cde6; 0xc33707d6; 0xf4d50d87; 0x455a14ed;
    0xa9e3e905; 0xfcefa3f8; 0x676f02d9; 0x8d2a4c8a;
    0xfffa3942; 0x8771f681; 0x6d9d6122; 0xfde5380c;
    0xa4beea44; 0x4bdecfa9; 0xf6bb4b60; 0xbebfbc70;
    0x289b7ec6; 0xeaa127fa; 0xd4ef3085; 0x04881d05;
    0xd9d4d039; 0xe6db99e5; 0x1fa27cf8; 0xc4ac5665;
    0xf4292244; 0x432aff97; 0xab9423a7; 0xfc93a039;
    0x655b59c3; 0x8f0ccc92; 0xffeff47d; 0x85845dd1;
    0x6fa87e4f; 0xfe2ce6e0; 0xa3014314; 0x4e0811a1;
    0xf7537e82; 0xbd3af235; 0x2ad7d2bb; 0xeb86d391 ].

Definition shifts : list Z :=
  [ 7; 12; 17; 22; 7; 12; 17; 22; 7; 12; 17; 22; 7; 12; 17; 22;
    5; 9; 14; 20; 5; 9; 14; 20; 5; 9; 14; 20; 5; 9; 14; 20;
    4; 11; 16; 23; 4; 11; 16; 23; 4; 11; 16; 23; 4; 11; 16; 23;
    6; 10; 15; 21; 6; 10; 15; 21; 6; 10; 15; 21; 6; 10; 15; 21 ].

Record state := { sa : Z; sb : Z; sc : Z; sd : Z }.

Definition init : state :=
  {| sa := 0x67452301; sb := 0xefcdab89; sc := 0x98badcfe; sd := 0x10325476 |}.

(* update(str) hashes the bytes of the string (UTF-8, which is how strings are held here). *)
Definition bytes_of_string (s : string) : list Z :=
  map (fun c => Z.of_N (N_of_ascii c)) (list_ascii_of_string s).

Definition le_bytes (n : nat) (x : Z) : list Z :=
  map (fun i => Z.shiftr x (8 * Z.of_nat i) mod 256) (seq 0 n).

Definition pad (msg : list Z) : list Z :=
  let len := Z.of_nat (length msg) in
  msg ++ [0x80] ++ repeat 0 (Z.to_nat ((55 - len) mod 64))
      ++ le_bytes 8 ((8 * len) mod 2 ^ 64).

Definition word_of_bytes (bs : list Z) : Z :=
  fold_right (fun b acc => b + 256 * acc) 0 bs.

Fixpoint words (n : nat) (bs : list Z) : list Z :=
  match n with
  | O => []
  | S n' => word_of_bytes (firstn 4 bs) :: words n' (skipn 4 bs)
  end.

Definition round (M : list Z) (st : state) (i : nat) : state :=
  let '(Build_state A B C D) := st in
  let iz := Z.of_nat i in
  let '(F, g) :=
    if iz <? 16 then (Z.lor (Z.land B C) (Z.land (not32 B) D), iz)
    else if iz <? 32 then (Z.lor (Z.land D B) (Z.land (not32 D) C), (5 * iz + 1) mod 16)
    else if iz <? 48 then (Z.lxor (Z.lxor B C) D, (3 * iz + 5) mod 16)
    else (Z.lxor C (Z.lor B (not32 D)), (7 * iz) mod 16) in
  let F' := add32 (add32 (add32 F A) (nth i K 0)) (nth (Z.to_nat g) M 0) in
  {| sa := D; sb := add32 B (rotl32 F' (nth i shifts 0)); sc := B; sd := C |}.

Definition block (st : state) (chunk : list Z) : state :=
  let M := words 16 chunk in
  let st' := fold_left (round M) (seq 0 64) st in
  {| sa := add32 (sa st) (sa st'); sb := add32 (sb st) (sb st');
     sc := add32 (sc st) (sc st'); sd := add32 (sd st) (sd st') |}.

Fixpoint blocks (n : nat) (st : state) (bs : list Z) : state :=
  match n with
  | O => st
  | S n' => blocks n' (block st (firstn 64 bs)) (skipn 64 bs)
  end.

Definition digest (msg : list Z) : list Z :=
  let p := pad msg in
  let st := blocks (length p / 64) init p in
  le_bytes 4 (sa st) ++ le_bytes 4 (sb st) ++ le_bytes 4 (sc st) ++ le_bytes 4 (sd st).

Definition hex_digit (d : Z) : ascii :=
  nth (Z.to_nat d) (list_ascii_of_string "0123456789abcdef") "0"%char.

Definition hex_byte (b : Z) : list ascii := [hex_digit (b / 16); hex_digit (b mod 16)].

(* digest("hex") *)
Definition hex (bs : list Z) : string :=
  string_of_list_ascii (flat_map hex_byte bs).

Definition md5_hex (s : string) : string := hex (digest (bytes_of_string s)).

End MD5.

(** ** JSON values, JSON.stringify and JSON.parse

    The values are those that a JSON text denotes.  A number is held as the
    decimal text that [Number::toString] prints for it, so that fractions such
    as 77.2197 are exact; [parse] keeps a number token as it is written, where
    JS reads it as a double (1.0 as 1, 1e2 as 100).  A string is held as its
    UTF-8 bytes, a code unit that is a surrogate without its partner in the
    three bytes of the generalized form; an object as its own properties in
    enumeration order. *)

Module JSON.

#[local] Unset Elimination Schemes.
Inductive value : Type :=
| VNull
| VBool (b : bool)
| VNum (lit : string)
| VStr (s : string)
| VArr (items : list value)
| VObj (props : list (string * value)).

Definition dq : ascii := ascii_of_nat 34.
Definition code (c : ascii) : N := N_of_ascii c.
Definition chr (n : N) : ascii := ascii_of_N n.

Definition hex_digit (d : N) : ascii :=
  nth (N.to_nat d) (list_ascii_of_string "0123456789abcdef") "0"%char.

Definition hex4 (n : N) : string :=
  String (hex_digit (n / 4096 mod 16)) (String (hex_digit (n / 256 mod 16))
    (String (hex_digit (n / 16 mod 16)) (String (hex_digit (n mod 16)) EmptyString))).

Definition escape_char (c : ascii) : string :=
  let n := code c in
  if (n =? 8)%N then "\b"
  else if (n =? 9)%N then "\t"
  else if (n =? 10)%N then "\n"
  else if (n =? 12)%N then "\f"
  else if (n =? 13)%N then "\r"
  else if (n =? 34)%N then String "\" (String dq EmptyString)
  else if (n =? 92)%N then "\\"
  else if (n <? 32)%N then "\u" +:+ hex4 n
  else String c EmptyString.

(* A surrogate code unit, which the UTF-8 held here writes in the three bytes
   ED A0..BF 80..BF. *)
Definition surrogate (c1 c2 c3 : ascii) : option N :=
  if ((code c1 =? 237) && (160 <=? code c2) && (code c2 <=? 191)
      && (128 <=? code c3) && (code c3 <=? 191))%N
  then Some (55296 + (code c2 - 160) * 64 + (code c3 - 128))%N
  else None.

Definition is_high (cu : N) : bool := ((55296 <=? cu) && (cu <=? 56319))%N.
Definition is_low (cu : N) : bool := ((56320 <=? cu) && (cu <=? 57343))%N.

(* The text starts with a low surrogate. *)
Definition low_ahead (s : string) : bool :=
  match s with
  | String c1 (String c2 (String c3 _)) =>
      match surrogate c1 c2 c3 with Some cu => is_low cu | None => false end
  | _ => false
  end.

(* QuoteJSONString, between the quotes.  A surrogate that is not half of a
   pair is written as the escape \udXXX.  A pair is one code point, held in four
   bytes; should a high surrogate be directly followed by a low one all the
   same, both are copied ([paired]: the bytes just copied were the high one). *)
Fixpoint quote_body_from (paired : bool) (s : string) : string :=
  match s with
  | EmptyString => EmptyString
  | String c1 s1 =>
      match s1 with
      | String c2 (String c3 s3) =>
          match surrogate c1 c2 c3 with
          | Some cu =>
              if (if is_high cu then low_ahead s3 else paired)
              then String c1 (String c2 (String c3 (quote_body_from (is_high cu) s3)))
              else "\u" +:+ hex4 cu +:+ quote_body_from false s3
          | None => escape_char c1 +:+ quote_body_from false s1
          end
      | _ => escape_char c1 +:+ quote_body_from false s1
      end
  end.

Definition quote_body (s : string) : string := quote_body_from false s.

Definition quote (s : string) : string :=
  String dq (quote_body s +:+ String dq EmptyString).

Fixpoint join (sep : string) (l : list string) : string :=
  match l with
  | [] => EmptyString
  | [x] => x
  | x :: l' => x +:+ sep +:+ join sep l'
  end.

Fixpoint stringify (v : value) : string :=
  match v with
  | VNull => "null"
  | VBool true => "true"
  | VBool false => "false"
  | VNum lit => lit
  | VStr s => quote s
  | VArr items => "[" +:+ join "," (map stringify items) +:+ "]"
  | VObj props =>
      "{" +:+ join "," (map (fun kv => quote (fst kv) +:+ ":" +:+ stringify (snd kv)) props) +:+ "}"
  end.

#[local] Set Elimination Schemes.

(* JSON.parse *)

Definition is_ws (c : ascii) : bool :=
  let n := code c in ((n =? 32) || (n =? 9) || (n =? 10) || (n =? 13))%N.

Fixpoint skip_ws (s : string) : string :=
  match s with
  | String c s' => if is_ws c then skip_ws s' else s
  | EmptyString => s
  end.

Fixpoint strip_prefix (p s : string) : option string :=
  match p, s with
  | EmptyString, _ => Some s
  | String a p', String b s' => if Ascii.eqb a b then strip_prefix p' s' else None
  | String _ _, EmptyString => None
  end.

Definition is_digit (c : ascii) : bool := ((48 <=? code c) && (code c <=? 57))%N.

Definition hex_value (c : ascii) : option N :=
  let n := code c in
  if ((48 <=? n) && (n <=? 57))%N then Some (n - 48)%N
  else if ((97 <=? n) && (n <=? 102))%N then Some (n - 87)%N
  else if ((65 <=? n) && (n <=? 70))%N then Some (n - 55)%N
  else None.

Definition hex4_value (a b c d : ascii) : option N :=
  match hex_value a, hex_value b, hex_value c, hex_value d with
  | Some x, Some y, Some z, Some w => Some (((x * 16 + y) * 16 + z) * 16 + w)%N
  | _, _, _, _ => None
  end.

(* UTF-8 encoding of a code point (the generalized form also covers a lone surrogate). *)
Definition utf8 (cp : N) : string :=
  if (cp <? 128)%N then String (chr cp) EmptyString
  else if (cp <? 2048)%N then
    String (chr (192 + cp / 64)) (String (chr (128 + cp mod 64)) EmptyString)
  else if (cp <? 65536)%N then
    String (chr (224 + cp / 4096)) (String (chr (128 + cp / 64 mod 64))
      (String (chr (128 + cp mod 64)) EmptyString))
  else
    String (chr (240 + cp / 262144)) (String (chr (128 + cp / 4096 mod 64))
      (String (chr (128 + cp / 64 mod 64)) (String (chr (128 + cp mod 64)) EmptyString))).

Definition flush (hi : option N) : string :=
  match hi with Some h => utf8 h | None => EmptyString end.

(* A \uXXXX code unit arriving after the pending high surrogate [hi]. *)
Definition push_unit (hi : option N) (cu : N) : string * option N :=
  if is_high cu then (flush hi, Some cu)
  else match hi with
       | Some h =>
           if is_low cu then (utf8 (65536 + (h - 55296) * 1024 + (cu - 56320))%N, None)
           else (utf8 h +:+ utf8 cu, None)
       | None => (utf8 cu, None)
       end.

Definition simple_escape (e : ascii) : option ascii :=
  let n := code e in
  if (n =? 34)%N then Some dq
  else if (n =? 92)%N then Some "\"%char
  else if (n =? 47)%N then Some "/"%char
  else if (n =? 98)%N then Some (chr 8)
  else if (n =? 102)%N then Some (chr 12)
  else if (n =? 110)%N then Some (chr 10)
  else if (n =? 114)%N then Some (chr 13)
  else if (n =? 116)%N then Some (chr 9)
  else None.

Definition prepend (p : string) (r : option (string * string)) : option (string * string) :=
  match r with
  | Some (s, rest) => Some (p +:+ s, rest)
  | None => None
  end.

(* The characters after an opening quote, up to and including the closing one. *)
Fixpoint parse_chars (hi : option N) (s : string) : option (string * string) :=
  match s with
  | EmptyString => None
  | String c s1 =>
      if (code c =? 34)%N then Some (flush hi, s1)
      else if (code c =? 92)%N then
        match s1 with
        | EmptyString => None
        | String e s2 =>
            if (code e =? 117)%N then
              match s2 with
              | String h1 (String h2 (String h3 (String h4 s3))) =>
                  match hex4_value h1 h2 h3 h4 with
                  | Some cu =>
                      let (out, hi') := push_unit hi cu in
                      prepend out (parse_chars hi' s3)
                  | None => None
                  end
              | _ => None
              end
            else
              match simple_escape e with
              | Some ch => prepend (flush hi +:+ String ch EmptyString) (parse_chars None s2)
              | None => None
              end
        end
      else if (code c <? 32)%N then None
      else prepend (flush hi +:+ String c EmptyString) (parse_chars None s1)
  end.

(* Number tokens: an optional minus, an integer part without leading zero,
   an optional fraction, an optional exponent. *)
Inductive num_state := NStart | NMinus | NZero | NInt | NDot | NFrac | NE | NESign | NExp.

Definition num_step (st : num_state) (c : ascii) : option num_state :=
  let n := code c in
  let digit := is_digit c in
  let dot := (n =? 46)%N in
  let e := ((n =? 101) || (n =? 69))%N in
  match st with
  | NStart => if (n =? 45)%N then Some NMinus
              else if (n =? 48)%N then Some NZero
              else if digit then Some NInt else None
  | NMinus => if (n =? 48)%N then Some NZero else if digit then Some NInt else None
  | NZero => if dot then Some NDot else if e then Some NE else None
  | NInt => if digit then Some NInt else if dot then Some NDot else if e then Some NE else None
  | NDot => if digit then Some NFrac else None
  | NFrac => if digit then Some NFrac else if e then Some NE else None
  | NE => if ((n =? 43) || (n =? 45))%N then Some NESign else if digit then Some NExp else None
  | NESign => if digit then Some NExp else None
  | NExp => if digit then Some NExp else None
  end.

Definition num_final (st : num_state) : bool :=
  match st with NZero | NInt | NFrac | NExp => true | _ => false end.

Fixpoint num_run (st : num_state) (s : string) : bool :=
  match s with
  | EmptyString => num_final st
  | String c s' => match num_step st c with Some st' => num_run st' s' | None => false end
  end.

Definition is_json_number (s : string) : bool := num_run NStart s.

Definition number_char (c : ascii) : bool :=
  let n := code c in
  (is_digit c || (n =? 45) || (n =? 43) || (n =? 46) || (n =? 101) || (n =? 69))%N.

Fixpoint span_number (s : string) : string * string :=
  match s with
  | String c s' =>
      if number_char c then let (tok, rest) := span_number s' in (String c tok, rest)
      else (EmptyString, s)
  | EmptyString => (EmptyString, EmptyString)
  end.

(* Own property keys: array indices ascending first, then the others in creation order. *)
Fixpoint digits_value (acc : N) (s : string) : option N :=
  match s with
  | EmptyString => Some acc
  | String c s' => if is_digit c then digits_value (acc * 10 + (code c - 48))%N s' else None
  end.

Definition array_index (k : string) : option N :=
  match k with
  | EmptyString => None
  | String c k' =>
      if ((code c =? 48)%N && negb (String.eqb k' EmptyString)) then None
      else match digits_value 0 k with
           | Some n => if (n <? 4294967295)%N then Some n else None
           | None => None
           end
  end.

(* [key_before k1 k2]: a property created with key k1 is enumerated before an existing key k2. *)
Definition key_before (k1 k2 : string) : bool :=
  match array_index k1, array_index k2 with
  | Some i, Some j => (i <? j)%N
  | Some _, None => true
  | None, _ => false
  end.

Fixpoint add_property (k : string) (v : value) (props : list (string * value))
  : list (string * value) :=
  match props with
  | [] => [(k, v)]
  | (k', v') :: rest =>
      if key_before k k' then (k, v) :: props
      else (k', v') :: add_property k v rest
  end.

Fixpoint has_property (k : string) (props : list (string * value)) : bool :=
  match props with
  | [] => false
  | (k', _) :: rest => String.eqb k k' || has_property k rest
  end.

Fixpoint set_property (k : string) (v : value) (props : list (string * value))
  : list (string * value) :=
  match props with
  | [] => []
  | (k', v') :: rest =>
      if String.eqb k k' then (k', v) :: rest else (k', v') :: set_property k v rest
  end.

Definition define_property (props : list (string * value)) (kv : string * value)
  : list (string * value) :=
  if has_property (fst kv) props then set_property (fst kv) (snd kv) props
  else add_property (fst kv) (snd kv) props.

Definition build_object (members : list (string * value)) : list (string * value) :=
  fold_left define_property members [].

Definition parser (A : Type) : Type := string -> option (A * string).

(* A value, given the parsers of what follows an opening bracket or brace. *)
Definition value_body (elements : parser (list value))
  (members : parser (list (string * value))) : parser value := fun s =>
  match skip_ws s with
  | EmptyString => None
  | String c s1 =>
      let n := code c in
      if (n =? 110)%N then
        match strip_prefix "ull" s1 with Some r => Some (VNull, r) | None => None end
      else if (n =? 116)%N then
        match strip_prefix "rue" s1 with Some r => Some (VBool true, r) | None => None end
      else if (n =? 102)%N then
        match strip_prefix "alse" s1 with Some r => Some (VBool false, r) | None => None end
      else if (n =? 34)%N then
        match parse_chars None s1 with Some (str, r) => Some (VStr str, r) | None => None end
      else if (n =? 91)%N then
        match skip_ws s1 with
        | EmptyString => None
        | String c1 r1 =>
            if (code c1 =? 93)%N then Some (VArr [], r1)
            else match elements s1 with
                 | Some (items, r) => Some (VArr items, r)
                 | None => None
                 end
        end
      else if (n =? 123)%N then
        match skip_ws s1 with
        | EmptyString => None
        | String c1 r1 =>
            if (code c1 =? 125)%N then Some (VObj [], r1)
            else match members s1 with
                 | Some (ms, r) => Some (VObj (build_object ms), r)
                 | None => None
                 end
        end
      else if ((n =? 45)%N || is_digit c) then
        let (tok, r) := span_number (String c s1) in
        if is_json_number tok then Some (VNum tok, r) else None
      else None
  end.

(* The elements of an array, up to and including the closing bracket. *)
Definition elements_body (val : parser value) (elements : parser (list value))
  : parser (list value) := fun s =>
  match val s with
  | None => None
  | Some (v, r) =>
      match skip_ws r with
      | EmptyString => None
      | String c r1 =>
          if (code c =? 44)%N then
            match elements r1 with
            | Some (vs, r2) => Some (v :: vs, r2)
            | None => None
            end
          else if (code c =? 93)%N then Some ([v], r1)
          else None
      end
  end.

(* The members of an object, up to and including the closing brace. *)
Definition members_body (val : parser value) (members : parser (list (string * value)))
  : parser (list (string * value)) := fun s =>
  match skip_ws s with
  | EmptyString => None
  | String c s1 =>
      if negb (code c =? 34)%N then None
      else
        match parse_chars None s1 with
        | None => None
        | Some (k, r) =>
            match skip_ws r with
            | EmptyString => None
            | String c2 r1 =>
                if negb (code c2 =? 58)%N then None
                else
                  match val r1 with
                  | None => None
                  | Some (v, r2) =>
                      match skip_ws r2 with
                      | EmptyString => None
                      | String c3 r3 =>
                          if (code c3 =? 44)%N then
                            match members r3 with
                            | Some (ms, r4) => Some ((k, v) :: ms, r4)
                            | None => None
                            end
                          else if (code c3 =? 125)%N then Some ([(k, v)], r3)
                          else None
                      end
                  end
            end
        end
  end.

(* The three parsers call each other; [fuel] bounds the depth of the calls. *)
Fixpoint parse_value (fuel : nat) (s : string) : option (value * string) :=
  match fuel with
  | O => None
  | S fuel' =>
      value_body (fun s' => parse_elements fuel' s') (fun s' => parse_members fuel' s') s
  end
with parse_elements (fuel : nat) (s : string) : option (list value * string) :=
  match fuel with
  | O => None
  | S fuel' =>
      elements_body (fun s' => parse_value fuel' s') (fun s' => parse_elements fuel' s') s
  end
with parse_members (fuel : nat) (s : string) : option (list (string * value) * string) :=
  match fuel with
  | O => None
  | S fuel' =>
      members_body (fun s' => parse_value fuel' s') (fun s' => parse_members fuel' s') s
  end.

(* JSON.parse(s): a value and nothing but white space after it.  The fuel is
   enough for every text: see [JSONFacts.parse_value_fuel]. *)
Definition parse (s : string) : option value :=
  match parse_value (2 * String.length s + 2) s with
  | Some (v, r) => match skip_ws r with EmptyString => Some v | String _ _ => None end
  | None => None
  end.

(* The values that JSON.parse produces: valid number texts, and object keys
   in enumeration order without repetition. *)

Fixpoint keys_wf (ks : list string) : bool :=
  match ks with
  | [] => true
  | k :: rest =>
      forallb (fun k' => negb (String.eqb k' k) && negb (key_before k' k)) rest && keys_wf rest
  end.

Fixpoint wf (v : value) : bool :=
  match v with
  | VNum lit => is_json_number lit
  | VArr items => forallb wf items
  | VObj props => keys_wf (map fst props) && forallb (fun kv => wf (snd kv)) props
  | _ => true
  end.

Fixpoint size (v : value) : nat :=
  match v with
  | VArr items => S (list_sum (map (fun x => S (size x)) items))
  | VObj props => S (list_sum (map (fun kv => S (size (snd kv))) props))
  | _ => 1%nat
  end.

(* A parser that succeeds leaves less text than it was given. *)
Definition consumes {A : Type} (p : parser A) : Prop :=
  forall s a r, p s = Some (a, r) -> (String.length r < String.length s)%nat.

(* Each production only consults its sub-parsers on shorter texts. *)
Definition agree_below {A : Type} (n : nat) (p q : parser A) : Prop :=
  forall s, (String.length s < n)%nat -> p s = q s.

(* For writing JSON texts in examples: every apostrophe stands for a double quote. *)
Definition sq (s : string) : string :=
  string_of_list_ascii
    (map (fun c => if (code c =? 39)%N then dq else c) (list_ascii_of_string s)).

(* typeof v === "object" *)
Definition typeof_object (v : value) : bool :=
  match v with
  | VNull | VArr _ | VObj _ => true
  | VBool _ | VNum _ | VStr _ => false
  end.

(* String(v), for the primitives *)
Definition to_String (v : value) : string :=
  match v with
  | VNull => "null"
  | VBool true => "true"
  | VBool false => "false"
  | VNum lit => lit
  | VStr s => s
  | VArr _ | VObj _ => "[object Object]"
  end.

(* What follows a number token in a text that parses. *)
Definition rest_ok (rest : string) : Prop :=
  match rest with
  | EmptyString => True
  | String c _ => number_char c = false
  end.

Definition value_start (c : ascii) : bool :=
  let n := code c in
  ((n =? 110) || (n =? 116) || (n =? 102) || (n =? 34) || (n =? 91) || (n =? 123)
   || (n =? 45))%N || is_digit c.

Definition member (kv : string * value) : string :=
  quote (fst kv) +:+ ":" +:+ stringify (snd kv).

(* What the proofs check of each surrogate 55296 + 64 a + b: its three bytes,
   and that its escape reads back. *)
Definition surrogate_ok (a b : nat) : bool :=
  let cu := (55296 + N.of_nat a * 64 + N.of_nat b)%N in
  String.eqb (utf8 cu)
    (String (chr 237) (String (chr (160 + N.of_nat a)) (String (chr (128 + N.of_nat b))
       EmptyString)))
  && match hex4 cu with
     | String x (String y (String z (String w EmptyString))) =>
         match hex4_value x y z w with Some n => (n =? cu)%N | None => false end
     | _ => false
     end.

Definition parses (v : value) : Prop :=
  forall fuel rest, (size v <= fuel)%nat -> rest_ok rest ->
    parse_value fuel (stringify v +:+ rest) = Some (v, rest).

End JSON.

Import JSON.

(** ** What the handlers see of the outside: errors, responses, the world *)

(* An axios response: response.status, response.statusText, response.data. *)
Record http_response := { status : Z; statusText : string; data : value }.

(* err.config, as far as the handler reads it. *)
Record request_config := { url : string; method : string }.

(* The values a handler can catch: an AxiosError (isAxiosError is true; code,
   config, request and response may be undefined), or any other Error (the
   Redis client's, a SyntaxError), of which only the message is read. *)
Inductive js_error :=
| AxiosError (code : option string) (message : string) (config : option request_config)
    (request : bool) (response : option http_response)
| Error (message : string).

Definition isAxiosError (err : js_error) : bool :=
  match err with AxiosError _ _ _ _ _ => true | Error _ => false end.

Definition err_code (err : js_error) : option string :=
  match err with AxiosError c _ _ _ _ => c | Error _ => None end.

Definition err_message (err : js_error) : string :=
  match err with AxiosError _ m _ _ _ => m | Error m => m end.

Definition err_config (err : js_error) : option request_config :=
  match err with AxiosError _ _ c _ _ => c | Error _ => None end.

Definition err_request (err : js_error) : bool :=
  match err with AxiosError _ _ _ r _ => r | Error _ => false end.

Definition err_response (err : js_error) : option http_response :=
  match err with AxiosError _ _ _ _ r => r | Error _ => None end.

(* a || b on a string that may be undefined: the empty string is falsy too. *)
Definition or_else (a : option string) (b : string) : string :=
  match a with
  | Some (String _ _ as s) => s
  | _ => b
  end.

(* What the network does with a request: an HTTP response of any status, or no
   response at all (connection refused, DNS failure, timeout), which axios
   reports by rejecting with the given error. *)
Inductive net_outcome :=
| Responds (r : http_response)
| Fails (e : js_error).

Inductive event :=
| RedisGet (key : string)
| RedisSetEx (key : string) (seconds : Z) (val : string)
| RedisPing
| HttpPost (to : string) (body : value) (timeout_ms : Z)
| HttpGet (to : string) (timeout_ms : Z).

(* An argument of console.error. *)
Inductive log_arg :=
| LStr (s : string)
| LJson (v : value)        (* JSON.stringify(v, null, 2) *)
| LConfig (c : option request_config)
| LErr (e : js_error).

Record world := {
  now : Z;                                  (* the clock, in milliseconds *)
  redis_db : gmap string (string * Z);      (* key to value and expiry instant *)
  redis_get_error : option string;          (* set: redis.get rejects with this message *)
  redis_set_error : option string;          (* set: redis.setEx rejects with this message *)
  redis_ping_reply : string + string;       (* inl e: ping rejects; inr s: ping resolves to s *)
  upstream_post : string -> value -> net_outcome;
  upstream_get : string -> net_outcome;
  trace : list event;                       (* the calls made, oldest first *)
  console : list (list log_arg)             (* console.error lines, oldest first *)
}.

Definition emit (ev : event) (w : world) : world :=
  {| now := now w; redis_db := redis_db w;
     redis_get_error := redis_get_error w; redis_set_error := redis_set_error w;
     redis_ping_reply := redis_ping_reply w;
     upstream_post := upstream_post w; upstream_get := upstream_get w;
     trace := trace w ++ [ev]; console := console w |}.

Definition with_log (line : list log_arg) (w : world) : world :=
  {| now := now w; redis_db := redis_db w;
     redis_get_error := redis_get_error w; redis_set_error := redis_set_error w;
     redis_ping_reply := redis_ping_reply w;
     upstream_post := upstream_post w; upstream_get := upstream_get w;
     trace := trace w; console := console w ++ [line] |}.

Definition with_db (db : gmap string (string * Z)) (w : world) : world :=
  {| now := now w; redis_db := db;
     redis_get_error := redis_get_error w; redis_set_error := redis_set_error w;
     redis_ping_reply := redis_ping_reply w;
     upstream_post := upstream_post w; upstream_get := upstream_get w;
     trace := trace w; console := console w |}.

(* Time passing between two requests. *)
Definition advance (dt : Z) (w : world) : world :=
  {| now := now w + dt; redis_db := redis_db w;
     redis_get_error := redis_get_error w; redis_set_error := redis_set_error w;
     redis_ping_reply := redis_ping_reply w;
     upstream_post := upstream_post w; upstream_get := upstream_get w;
     trace := trace w; console := console w |}.

(** ** Promises: a state monad with exceptions *)

Inductive result (A : Type) : Type :=
| Ok (a : A)
| Throw (e : js_error).
Arguments Ok {A} a.
Arguments Throw {A} e.

Definition M (S A : Type) : Type := S -> result A * S.

#[global] Instance M_ret {S : Type} : MRet (M S) := fun A a s => (Ok a, s).

#[global] Instance M_bind {S : Type} : MBind (M S) := fun A B f m s =>
  match m s with
  | (Ok a, s') => f a s'
  | (Throw e, s') => (Throw e, s')
  end.

Definition throw {S A : Type} (e : js_error) : M S A := fun s => (Throw e, s).

(* try { m } catch (err) { h err } *)
Definition try_catch {S A : Type} (m : M S A) (h : js_error -> M S A) : M S A := fun s =>
  match m s with
  | (Ok a, s') => (Ok a, s')
  | (Throw e, s') => h e s'
  end.

(** ** The Redis client *)

(* The value under a key, unless its time to live has run out: Redis takes a
   key for expired once the clock is past its expiry instant. *)
Definition redis_lookup (w : world) (key : string) : option string :=
  match redis_db w !! key with
  | Some (v, expiry) => if now w <=? expiry then Some v else None
  | None => None
  end.

Definition redis_get (key : string) : M world (option string) := fun w =>
  let w' := emit (RedisGet key) w in
  match redis_get_error w with
  | Some msg => (Throw (Error msg), w')
  | None => (Ok (redis_lookup w key), w')
  end.

(* The time to live runs from the instant of the request, which is run as one step. *)
Definition redis_setEx (key : string) (seconds : Z) (val : string) : M world unit := fun w =>
  let w' := emit (RedisSetEx key seconds val) w in
  match redis_set_error w with
  | Some msg => (Throw (Error msg), w')
  | None => (Ok tt, with_db (<[key := (val, now w + seconds * 1000)]> (redis_db w)) w')
  end.

Definition redis_ping : M world string := fun w =>
  let w' := emit RedisPing w in
  match redis_ping_reply w with
  | inl msg => (Throw (Error msg), w')
  | inr s => (Ok s, w')
  end.

(** ** axios *)

Record axios_config := { timeout : Z; validateStatus : Z -> bool }.

(* The code of the error for a status that validateStatus refuses:
   ERR_BAD_REQUEST for 400 to 499, ERR_BAD_RESPONSE from 500 on. *)
Definition bad_status_code (s : Z) : option string :=
  if (400 <=? s) && (s <? 500) then Some "ERR_BAD_REQUEST"
  else if 500 <=? s then Some "ERR_BAD_RESPONSE"
  else None.

(* settle: resolve when validateStatus accepts the status, reject otherwise. *)
Definition settle (cfg : axios_config) (rc : request_config) (r : http_response)
  : result http_response :=
  if (status r =? 0) || validateStatus cfg (status r) then Ok r
  else Throw (AxiosError (bad_status_code (status r))
                ("Request failed with status code " +:+ pretty (status r))
                (Some rc) true (Some r)).

Definition axios_post (to : string) (body : value) (cfg : axios_config)
  : M world http_response := fun w =>
  let w' := emit (HttpPost to body (timeout cfg)) w in
  match upstream_post w to body with
  | Responds r => (settle cfg {| url := to; method := "post" |} r, w')
  | Fails e => (Throw e, w')
  end.

Definition axios_get (to : string) (cfg : axios_config) : M world http_response := fun w =>
  let w' := emit (HttpGet to (timeout cfg)) w in
  match upstream_get w to with
  | Responds r => (settle cfg {| url := to; method := "get" |} r, w')
  | Fails e => (Throw e, w')
  end.

Definition console_error (line : list log_arg) : M world unit := fun w => (Ok tt, with_log line w).

(** ** The Express response object *)

Record response := {
  statusCode : Z;
  headers : list (string * string);
  body_sent : option value          (* the argument of res.json *)
}.

Definition fresh_response : response :=
  {| statusCode := 200; headers := []; body_sent := None |}.

Fixpoint set_header (name val : string) (hs : list (string * string)) : list (string * string) :=
  match hs with
  | [] => [(name, val)]
  | (n, v) :: rest =>
      if String.eqb n name then (n, val) :: rest else (n, v) :: set_header name val rest
  end.

Fixpoint header (name : string) (hs : list (string * string)) : option string :=
  match hs with
  | [] => None
  | (n, v) :: rest => if String.eqb n name then Some v else header name rest
  end.

(* A request in flight: the world and the response under construction. *)
Record hstate := { world_of : world; res : response }.

Definition lift {A : Type} (m : M world A) : M hstate A := fun h =>
  let (r, w') := m (world_of h) in (r, {| world_of := w'; res := res h |}).

Definition res_set (name val : string) : M hstate unit := fun h =>
  (Ok tt, {| world_of := world_of h;
             res := {| statusCode := statusCode (res h);
                       headers := set_header name val (headers (res h));
                       body_sent := body_sent (res h) |} |}).

Definition res_status (s : Z) : M hstate unit := fun h =>
  (Ok tt, {| world_of := world_of h;
             res := {| statusCode := s; headers := headers (res h);
                       body_sent := body_sent (res h) |} |}).

Definition res_json (v : value) : M hstate unit := fun h =>
  (Ok tt, {| world_of := world_of h;
             res := {| statusCode := statusCode (res h); headers := headers (res h);
                       body_sent := Some v |} |}).

(* JSON.parse(text), which throws a SyntaxError on a text that is not JSON. *)
Definition JSON_parse {S : Type} (text : string) : M S value :=
  match JSON.parse text with
  | Some v => mret v
  | None => throw (Error "Unexpected token in JSON")
  end.

(** ** The proxy *)

Section Proxy.

(* process.env *)
Variable process_env : gmap string string.

(* process.env.REDIS_URL || "redis://redis:6379" *)
Definition REDIS_URL : string := or_else (process_env !! "REDIS_URL") "redis://redis:6379".

(* process.env.VROOM_URL || "http://vroom:3000" *)
Definition VROOM_URL : string := or_else (process_env !! "VROOM_URL") "http://vroom:3000".

(* The first health endpoint of server.js, which probes nothing:
   res.json({ ok: true, vroom: VROOM_URL, redis: REDIS_URL }) *)
Definition health_static : value :=
  VObj [("ok", VBool true); ("vroom", VStr VROOM_URL); ("redis", VStr REDIS_URL)].

(* Helper to create a cache key *)
Definition makeKey (body : value) : string :=
  "vroom:" +:+ MD5.md5_hex (JSON.stringify body).

(* The catch block of app.post("/"). *)
Definition post_root_catch (err : js_error) : M hstate unit :=
  let isAxios := isAxiosError err in
  match (if isAxios then err_response err else None) with
  | Some response =>
      lift (console_error
              [LStr "Upstream error:";
               LJson (VObj ([("status", VNum (pretty (status response)));
                             ("statusText", VStr (statusText response))]
                            ++ match err_config err with
                               | Some c => [("url", VStr (url c)); ("method", VStr (method c))]
                               | None => []
                               end))]);;
      res_status (status response);;
      res_json (if typeof_object (data response) then data response
                else VObj [("error", VStr (to_String (data response)))])
  | None =>
      if isAxios && err_request err then
        lift (console_error
                [LStr "Request error:"; LStr (or_else (err_code err) (err_message err));
                 LConfig (err_config err)]);;
        res_status 502;;
        res_json (VObj [("error", VStr "Bad gateway to VROOM");
                        ("code", VStr (or_else (err_code err) "EAXIOS"))])
      else
        lift (console_error
                [LStr "Error:";
                 match err_message err with
                 | String _ _ as m => LStr m
                 | EmptyString => LErr err
                 end]);;
        res_status 500;;
        res_json (VObj [("error", VStr "Internal server error")])
  end.

(* app.post("/", async (req, res) => ...), on a req.body that holds a value. *)
Definition post_root (body : value) : M hstate unit :=
  let key := makeKey body in
  try_catch
    (cached ← lift (redis_get key);
     match cached with
     | Some (String _ _ as text) =>
         res_set "X-Cache" "HIT";;
         v ← JSON_parse text;
         res_json v
     | _ =>
         vroomRes ← lift (axios_post VROOM_URL body
                            {| timeout := 60000; validateStatus := fun _ => true |});
         (if status vroomRes =? 200
          then lift (redis_setEx key 3600 (JSON.stringify (data vroomRes)))
          else mret tt);;
         res_set "X-Cache" "MISS";;
         res_status (status vroomRes);;
         res_json (data vroomRes)
     end)
    post_root_catch.

(* One POST / request, from the fresh response object to the response sent. *)
Definition handle_post (body : value) (w : world) : response * world :=
  let (_, h) := post_root body {| world_of := w; res := fresh_response |} in
  (res h, world_of h).

(* What hash.update(data) throws when data is not a string: a TypeError. *)
Definition update_type_error : js_error :=
  Error ("The " +:+ String dq "data" +:+ String dq " argument must be of type string"
         +:+ " or an instance of Buffer, TypedArray, or DataView. Received undefined").

(* The handler on req.body as express.json() leaves it: the value of the JSON
   body, or undefined when no body was parsed.  const key = makeKey(req.body)
   stands before the try block: on undefined, JSON.stringify returns undefined,
   hash.update throws, and the promise of the handler rejects. *)
Definition post_request (req_body : option value) : M hstate unit :=
  match req_body with
  | Some body => post_root body
  | None => throw update_type_error
  end.

(** ** Health checks *)

Record check := {
  chk_service : option string;
  chk_profile : option string;
  chk_url : string;
  chk_status : Z;
  chk_ok : bool;
  chk_message : string
}.

(* Health check helper for OSRM services *)
Definition checkOSRMHealth (baseUrl profile : string) : M world check :=
  let testRoute := "77.1025,28.7041;77.1125,28.7141" in
  let url := baseUrl +:+ "/route/v1/driving/" +:+ testRoute in
  try_catch
    (response ← axios_get url {| timeout := 5000; validateStatus := fun status => status <? 500 |};
     mret {| chk_service := None; chk_profile := Some profile; chk_url := baseUrl;
             chk_status := status response;
             chk_ok := status response <? 400;
             chk_message := if status response <? 400 then "OK"
                            else "HTTP " +:+ pretty (status response) |})
    (fun error =>
     mret {| chk_service := None; chk_profile := Some profile; chk_url := baseUrl;
             chk_status := 0;
             chk_ok := false;
             chk_message := or_else (err_code error)
                              (or_else (Some (err_message error)) "Connection failed") |}).

Definition testRequest (profile : string) : value :=
  VObj [("vehicles", VArr [VObj [("id", VNum "1"); ("profile", VStr profile);
                                 ("start", VArr [VNum "77.2197"; VNum "28.6328"])]]);
        ("jobs", VArr [VObj [("id", VNum "1");
                             ("location", VArr [VNum "77.2295"; VNum "28.6129"])]])].

(* Health check helper for VROOM service with specific profile *)
Definition checkVroomHealth (baseUrl profile : string) : M world check :=
  try_catch
    (response ← axios_post baseUrl (testRequest profile)
                  {| timeout := 5000; validateStatus := fun status => status <? 500 |};
     mret {| chk_service := Some "vroom"; chk_profile := Some profile; chk_url := baseUrl;
             chk_status := status response;
             chk_ok := status response <? 400;
             chk_message := if status response <? 400 then "OK"
                            else "HTTP " +:+ pretty (status response) |})
    (fun error =>
     mret {| chk_service := Some "vroom"; chk_profile := Some profile; chk_url := baseUrl;
             chk_status := 0;
             chk_ok := false;
             chk_message := or_else (err_code error)
                              (or_else (Some (err_message error)) "Connection failed") |}).

(* Health check helper for Redis service *)
Definition checkRedisHealth : M world check :=
  try_catch
    (pong ← redis_ping;
     mret {| chk_service := Some "redis"; chk_profile := None; chk_url := REDIS_URL;
             chk_status := 200;
             chk_ok := String.eqb pong "PONG";
             chk_message := if String.eqb pong "PONG" then "OK"
                            else "Unexpected ping response" |})
    (fun error =>
     mret {| chk_service := Some "redis"; chk_profile := None; chk_url := REDIS_URL;
             chk_status := 0;
             chk_ok := false;
             chk_message := or_else (Some (err_message error)) "Connection failed" |}).

Record services := {
  vroom_profiles : list check;
  redis : check;
  osrm_profiles : list check
}.

Record report := { ok : bool; services_of : services }.

(* Enhanced health endpoint with all service checks: the five probes are
   started in this order and all awaited (Promise.all); the report is what
   res.json receives. *)
Definition health : M world report :=
  osrm1 ← checkOSRMHealth "http://osrm-motorbike:5000" "motorbike";
  osrm2 ← checkOSRMHealth "http://osrm-small-truck:5000" "smalltruck";
  vroom1 ← checkVroomHealth VROOM_URL "motorbike";
  vroom2 ← checkVroomHealth VROOM_URL "smalltruck";
  redisCheck ← checkRedisHealth;
  let osrmChecks := [osrm1; osrm2] in
  let vroomChecks := [vroom1; vroom2] in
  let allHealthy := forallb chk_ok (osrmChecks ++ vroomChecks ++ [redisCheck]) in
  mret {| ok := allHealthy;
          services_of := {| vroom_profiles := vroomChecks; redis := redisCheck;
                            osrm_profiles := osrmChecks |} |}.

End Proxy.

(* if (cached): a string that is neither null nor empty *)
Definition truthy (cached : option string) : bool :=
  match cached with
  | Some (String _ _) => true
  | _ => false
  end.

(** ** Observations on a run *)

(* The calls made between two states of the world. *)
Definition since (w w' : world) : list event := drop (length (trace w)) (trace w').

(* The lines written to the console between two states of the world. *)
Definition logged (w w' : world) : list (list log_arg) :=
  drop (length (console w)) (console w').

(* res.status(500).json({ error: "Internal server error" }) *)
Definition internal_error : value := VObj [("error", VStr "Internal server error")].

(* { error: "Bad gateway to VROOM", code } *)
Definition bad_gateway (code : string) : value :=
  VObj [("error", VStr "Bad gateway to VROOM"); ("code", VStr code)].

(* The line that the last branch of the catch block logs for an Error. *)
Definition error_line (msg : string) : list log_arg :=
  [LStr "Error:"; match msg with String _ _ as m => LStr m | EmptyString => LErr (Error msg) end].

Definition is_forward (ev : event) : bool :=
  match ev with HttpPost _ _ _ => true | _ => false end.

Definition is_write (ev : event) : bool :=
  match ev with RedisSetEx _ _ _ => true | _ => false end.

(* The client receives the upstream status and body, tagged MISS. *)
Definition passthrough (res : response) (r : http_response) : Prop :=
  statusCode res = status r /\ body_sent res = Some (data r)
  /\ header "X-Cache" (headers res) = Some "MISS".

(** ** Scenarios *)

(* The request and the answer of the running example. *)
Definition example_body : value :=
  VObj [("jobs", VArr [VObj [("id", VNum "1"); ("location", VArr [VNum "0"; VNum "0"])]]);
        ("vehicles", VArr [VObj [("id", VNum "1"); ("start", VArr [VNum "0"; VNum "0"])]])].

Definition example_solution : value := VObj [("code", VNum "0"); ("routes", VArr [])].

Definition answer (st : Z) (d : value) : net_outcome :=
  Responds {| status := st; statusText := EmptyString; data := d |}.

(* A world at time 0 with the given Redis contents and faults, where every
   request to the network has the same outcome. *)
Definition scenario (db : gmap string (string * Z)) (get_error set_error : option string)
  (ping : string + string) (net : net_outcome) : world :=
  {| now := 0; redis_db := db;
     redis_get_error := get_error; redis_set_error := set_error;
     redis_ping_reply := ping;
     upstream_post := fun _ _ => net; upstream_get := fun _ => net;
     trace := []; console := [] |}.

Definition healthy (net : net_outcome) : world := scenario ∅ None None (inr "PONG") net.

Definition connection_refused : js_error :=
  AxiosError (Some "ECONNREFUSED") "connect ECONNREFUSED"
    (Some {| url := "http://vroom:3000"; method := "post" |}) true None.

(* The URL that the OSRM probe requests. *)
Definition osrm_url (baseUrl : string) : string :=
  baseUrl +:+ "/route/v1/driving/" +:+ "77.1025,28.7041;77.1125,28.7141".

(* error.code || error.message || "Connection failed" *)
Definition failure_message (e : js_error) : string :=
  or_else (err_code e) (or_else (Some (err_message e)) "Connection failed").

(* What a probe reports for an outcome of its request. *)
Definition verdict (net : net_outcome) (c : check) : Prop :=
  match net with
  | Responds r =>
      (status r < 400 ->
         chk_ok c = true /\ chk_status c = status r /\ chk_message c = "OK") /\
      (400 <= status r < 500 ->
         chk_ok c = false /\ chk_status c = status r
         /\ chk_message c = "HTTP " +:+ pretty (status r)) /\
      (500 <= status r ->
         chk_ok c = false /\ chk_status c = 0 /\ chk_message c <> EmptyString)
  | Fails e =>
      chk_ok c = false /\ chk_status c = 0
      /\ chk_message c = failure_message e /\ chk_message c <> EmptyString
  end.

(** ** The first version of the handler

    Before validateStatus, the timeout and the detailed catch block were
    added: axios keeps its defaults (a status outside 200..299 rejects, no
    timeout), the upstream address is fixed, and every error is a 500. *)

(* The default validateStatus of axios: status >= 200 && status < 300 *)
Definition default_validateStatus (status : Z) : bool := (200 <=? status) && (status <? 300).

(* app.post("/", ...) of the first version *)
Definition post_root_v0 (body : value) : M hstate unit :=
  let key := makeKey body in
  try_catch
    (cached ← lift (redis_get key);
     match cached with
     | Some (String _ _ as text) =>
         res_set "X-Cache" "HIT";;
         v ← JSON_parse text;
         res_json v
     | _ =>
         vroomRes ← lift (axios_post "http://vroom:3000" body
                            {| timeout := 0; validateStatus := default_validateStatus |});
         (if status vroomRes =? 200
          then lift (redis_setEx key 3600 (JSON.stringify (data vroomRes)))
          else mret tt);;
         res_set "X-Cache" "MISS";;
         res_status (status vroomRes);;
         res_json (data vroomRes)
     end)
    (fun err =>
       lift (console_error [LStr "Error:"; LStr (err_message err)]);;
       res_status 500;;
       res_json (VObj [("error", VStr "Internal server error")])).

Definition handle_post_v0 (body : value) (w : world) : response * world :=
  let (_, h) := post_root_v0 body {| world_of := w; res := fresh_response |} in
  (res h, world_of h).

(** ** The paths through the handler, and what a request depends on *)

(* The outcome of a probe request is a response with a status below 400. *)
Definition up (net : net_outcome) : Prop :=
  exists r, net = Responds r /\ status r < 400.

(* Two worlds in which a request under [key] meets the same clock, the same
   faults, the same cache entry and the same upstream. *)
Definition same_inputs (key : string) (w w' : world) : Prop :=
  now w = now w' /\
  redis_get_error w = redis_get_error w' /\
  redis_set_error w = redis_set_error w' /\
  redis_lookup w key = redis_lookup w' key /\
  upstream_post w = upstream_post w'.

(* A request that fails got no response: the errors of the network layer
   (connection refused, DNS failure, timeout, invalid URL) carry none. *)
Definition fails_without_response (w : world) : Prop :=
  forall to body e, upstream_post w to body = Fails e -> err_response e = None.

(* A lowercase hexadecimal digit. *)
Definition lower_hex (c : ascii) : bool :=
  let n := N_of_ascii c in
  (((48 <=? n) && (n <=? 57)) || ((97 <=? n) && (n <=? 102)))%N.

(* The seven ways a POST can go, each with the response sent and the world left. *)
Inductive post_path (env : gmap string string) (body : value) (w : world)
  : response -> world -> Prop :=
| path_read_error msg :
    redis_get_error w = Some msg ->
    post_path env body w
      {| statusCode := 500; headers := []; body_sent := Some internal_error |}
      (with_log (error_line msg) (emit (RedisGet (makeKey body)) w))
| path_hit c text v :
    redis_get_error w = None ->
    redis_lookup w (makeKey body) = Some (String c text) ->
    JSON.parse (String c text) = Some v ->
    post_path env body w
      {| statusCode := 200; headers := [("X-Cache", "HIT")]; body_sent := Some v |}
      (emit (RedisGet (makeKey body)) w)
| path_hit_garbled c text :
    redis_get_error w = None ->
    redis_lookup w (makeKey body) = Some (String c text) ->
    JSON.parse (String c text) = None ->
    post_path env body w
      {| statusCode := 500; headers := [("X-Cache", "HIT")]; body_sent := Some internal_error |}
      (with_log (error_line "Unexpected token in JSON") (emit (RedisGet (makeKey body)) w))
| path_miss r :
    redis_get_error w = None ->
    truthy (redis_lookup w (makeKey body)) = false ->
    upstream_post w (VROOM_URL env) body = Responds r ->
    status r <> 200 ->
    post_path env body w
      {| statusCode := status r; headers := [("X-Cache", "MISS")]; body_sent := Some (data r) |}
      (emit (HttpPost (VROOM_URL env) body 60000) (emit (RedisGet (makeKey body)) w))
| path_miss_cached r :
    redis_get_error w = None ->
    truthy (redis_lookup w (makeKey body)) = false ->
    upstream_post w (VROOM_URL env) body = Responds r ->
    status r = 200 ->
    redis_set_error w = None ->
    post_path env body w
      {| statusCode := 200; headers := [("X-Cache", "MISS")]; body_sent := Some (data r) |}
      (with_db (<[makeKey body := (JSON.stringify (data r), now w + 3600 * 1000)]> (redis_db w))
         (emit (RedisSetEx (makeKey body) 3600 (JSON.stringify (data r)))
            (emit (HttpPost (VROOM_URL env) body 60000)
               (emit (RedisGet (makeKey body)) w))))
| path_write_error r msg :
    redis_get_error w = None ->
    truthy (redis_lookup w (makeKey body)) = false ->
    upstream_post w (VROOM_URL env) body = Responds r ->
    status r = 200 ->
    redis_set_error w = Some msg ->
    post_path env body w
      {| statusCode := 500; headers := []; body_sent := Some internal_error |}
      (with_log (error_line msg)
         (emit (RedisSetEx (makeKey body) 3600 (JSON.stringify (data r)))
            (emit (HttpPost (VROOM_URL env) body 60000)
               (emit (RedisGet (makeKey body)) w))))
| path_rejected e line st v :
    redis_get_error w = None ->
    truthy (redis_lookup w (makeKey body)) = false ->
    upstream_post w (VROOM_URL env) body = Fails e ->
    (st = 500 \/ st = 502 \/ exists r, err_response e = Some r /\ st = status r) ->
    post_path env body w
      {| statusCode := st; headers := []; body_sent := Some v |}
      (with_log line
         (emit (HttpPost (VROOM_URL env) body 60000) (emit (RedisGet (makeKey body)) w))).

(** * Verification *)

(** ** The digest has a fixed length *)

Module MD5Facts.
Import MD5.

Example md5_empty : md5_hex EmptyString = "d41d8cd98f00b204e9800998ecf8427e".
Proof. vm_compute. reflexivity. Qed.

Example md5_abc : md5_hex "abc" = "900150983cd24fb0d6963f7d28e17f72".
Proof. vm_compute. reflexivity. Qed.

(* A message of 80 bytes, hence of two blocks. *)
Example md5_two_blocks :
  md5_hex "12345678901234567890123456789012345678901234567890123456789012345678901234567890"
  = "57edf4a22be3c955ac49da2e2107b67a".
Proof. vm_compute. reflexivity. Qed.

Lemma length_le_bytes n x : length (le_bytes n x) = n.
Proof. unfold le_bytes. now rewrite length_map, length_seq. Qed.

Lemma length_digest msg : length (digest msg) = 16%nat.
Proof. unfold digest. cbv zeta. rewrite !length_app, !length_le_bytes. reflexivity. Qed.

Lemma length_hex bs : String.length (hex bs) = (2 * length bs)%nat.
Proof.
  unfold hex. induction bs as [|b bs IH]; [reflexivity|].
  cbn [flat_map hex_byte app string_of_list_ascii String.length length].
  rewrite IH. lia.
Qed.

Lemma length_md5_hex s : String.length (md5_hex s) = 32%nat.
Proof. unfold md5_hex. now rewrite length_hex, length_digest. Qed.

End MD5Facts.

(** ** JSON.parse inverts JSON.stringify *)

Module JSONFacts.

Lemma value_ind (P : value -> Prop)
  (Hnull : P VNull) (Hbool : forall b, P (VBool b))
  (Hnum : forall lit, P (VNum lit)) (Hstr : forall s, P (VStr s))
  (Harr : forall items, Forall P items -> P (VArr items))
  (Hobj : forall props, Forall (fun kv => P (snd kv)) props -> P (VObj props)) :
  forall v, P v.
Proof.
  fix IH 1. intros [|b|lit|s|items|props].
  - exact Hnull.
  - apply Hbool.
  - apply Hnum.
  - apply Hstr.
  - apply Harr. induction items as [|x items IHitems]; constructor; [apply IH | exact IHitems].
  - apply Hobj. induction props as [|kv props IHprops]; constructor;
      [apply IH | exact IHprops].
Qed.

(* Strings *)

Lemma sapp_cons c s t : String c s +:+ t = String c (s +:+ t).
Proof. reflexivity. Qed.

Lemma sapp_nil_l t : EmptyString +:+ t = t.
Proof. reflexivity. Qed.

Lemma sapp_assoc s t u : (s +:+ t) +:+ u = s +:+ (t +:+ u).
Proof. induction s as [|c s IH]; [reflexivity|]. rewrite !sapp_cons, IH. reflexivity. Qed.

Lemma sapp_length s t : String.length (s +:+ t) = (String.length s + String.length t)%nat.
Proof. induction s as [|c s IH]; [reflexivity|]. rewrite sapp_cons. simpl. now rewrite IH. Qed.

Ltac snorm := repeat (rewrite sapp_cons || rewrite sapp_assoc || rewrite sapp_nil_l).

Lemma sapp_nil_r s : s +:+ EmptyString = s.
Proof. induction s as [|c s IH]; [reflexivity|]. now rewrite sapp_cons, IH. Qed.

Lemma parse_escape hi c t :
  parse_chars hi (escape_char c +:+ t)
  = prepend (flush hi +:+ String c EmptyString) (parse_chars None t).
Proof. destruct hi; destruct c as [[] [] [] [] [] [] [] []]; reflexivity. Qed.


Lemma surrogates_ok :
  forallb (fun a => forallb (surrogate_ok a) (seq 0 64)) (seq 0 32) = true.
Proof. vm_compute. reflexivity. Qed.

Lemma surrogate_inv c1 c2 c3 cu :
  surrogate c1 c2 c3 = Some cu ->
  utf8 cu = String c1 (String c2 (String c3 EmptyString)) /\
  exists x y z w, hex4 cu = String x (String y (String z (String w EmptyString)))
                  /\ hex4_value x y z w = Some cu.
Proof.
  unfold surrogate. intros H.
  destruct (code c1 =? 237)%N eqn:H1; [|discriminate].
  destruct (160 <=? code c2)%N eqn:H2; [|discriminate].
  destruct (code c2 <=? 191)%N eqn:H3; [|discriminate].
  destruct (128 <=? code c3)%N eqn:H4; [|discriminate].
  destruct (code c3 <=? 191)%N eqn:H5; [|discriminate].
  cbn [andb] in H. injection H as <-.
  apply N.eqb_eq in H1. apply N.leb_le in H2, H3, H4, H5.
  pose proof surrogates_ok as Hall. rewrite forallb_forall in Hall.
  specialize (Hall (N.to_nat (code c2 - 160))).
  rewrite forallb_forall in Hall.
  specialize (Hall ltac:(apply in_seq; lia) (N.to_nat (code c3 - 128)) ltac:(apply in_seq; lia)).
  unfold surrogate_ok in Hall. cbv zeta in Hall. rewrite !N2Nat.id in Hall.
  apply andb_true_iff in Hall as [Hu Hh]. apply String.eqb_eq in Hu.
  replace (160 + (code c2 - 160))%N with (code c2) in Hu by lia.
  replace (128 + (code c3 - 128))%N with (code c3) in Hu by lia.
  rewrite <- H1 in Hu. unfold chr, code in Hu. rewrite !ascii_N_embedding in Hu.
  split; [exact Hu|].
  destruct (hex4 _) as [|x [|y [|z [|w [|? ?]]]]]; try discriminate Hh.
  exists x, y, z, w. split; [reflexivity|].
  destruct (hex4_value x y z w); [|discriminate Hh]. apply N.eqb_eq in Hh. now subst.
Qed.

Lemma parse_raw hi c t :
  (128 <= code c)%N ->
  parse_chars hi (String c t) = prepend (flush hi +:+ String c EmptyString) (parse_chars None t).
Proof.
  intros H. cbn [parse_chars].
  assert ((code c =? 34)%N = false) as -> by (apply N.eqb_neq; lia).
  assert ((code c =? 92)%N = false) as -> by (apply N.eqb_neq; lia).
  assert ((code c <? 32)%N = false) as -> by (apply N.ltb_ge; lia).
  reflexivity.
Qed.

Lemma surrogate_codes c1 c2 c3 cu :
  surrogate c1 c2 c3 = Some cu -> (128 <= code c1 /\ 128 <= code c2 /\ 128 <= code c3)%N.
Proof.
  unfold surrogate. intros H.
  destruct (code c1 =? 237)%N eqn:H1; [|discriminate].
  destruct (160 <=? code c2)%N eqn:H2; [|discriminate].
  destruct (code c2 <=? 191)%N eqn:H3; [|discriminate].
  destruct (128 <=? code c3)%N eqn:H4; [|discriminate].
  apply N.eqb_eq in H1. apply N.leb_le in H2, H3, H4. lia.
Qed.

Lemma parse_unit hi cu x y z w t :
  hex4 cu = String x (String y (String z (String w EmptyString))) ->
  hex4_value x y z w = Some cu ->
  parse_chars hi ("\u" +:+ hex4 cu +:+ t)
  = let (out, hi') := push_unit hi cu in prepend out (parse_chars hi' t).
Proof.
  intros Hx Hv. rewrite Hx. snorm. cbn -[push_unit prepend hex4_value]. rewrite Hv. reflexivity.
Qed.

Lemma prepend_value p s r : prepend p (Some (s, r)) = Some (p +:+ s, r).
Proof. reflexivity. Qed.

Lemma parse_chars_quote_from n : forall s, (String.length s <= n)%nat -> forall rest,
  (forall paired,
     parse_chars None (quote_body_from paired s +:+ String dq rest) = Some (s, rest)) /\
  (forall h, low_ahead s = false ->
     parse_chars (Some h) (quote_body_from false s +:+ String dq rest)
     = Some (utf8 h +:+ s, rest)).
Proof.
  induction n as [|n IH]; intros s Hlen rest.
  { destruct s; [|simpl in Hlen; lia].
    split; intros; cbn [quote_body_from]; rewrite sapp_nil_l, ?sapp_nil_r; reflexivity. }
  assert (Hplain : forall c1 s1, s = String c1 s1 ->
            forall hi, parse_chars hi ((escape_char c1 +:+ quote_body_from false s1)
                                       +:+ String dq rest)
                       = Some (flush hi +:+ s, rest)).
  { intros c1 s1 -> hi. rewrite sapp_assoc, parse_escape.
    destruct (IH s1 ltac:(simpl in Hlen; lia) rest) as [-> _].
    rewrite prepend_value. now snorm. }
  destruct s as [|c1 s1].
  { split; intros; cbn [quote_body_from]; rewrite sapp_nil_l, ?sapp_nil_r; reflexivity. }
  destruct s1 as [|c2 [|c3 s3]].
  1,2: split; [intros paired | intros h _]; cbn [quote_body_from];
       now rewrite (Hplain _ _ eq_refl).
  cbn [quote_body_from].
  destruct (surrogate c1 c2 c3) as [cu|] eqn:Hsur.
  2: { split; [intros paired | intros h _]; now rewrite (Hplain _ _ eq_refl). }
  destruct (surrogate_inv _ _ _ _ Hsur) as (Hu & x & y & z & w & Hhex & Hval).
  destruct (surrogate_codes _ _ _ _ Hsur) as (G1 & G2 & G3).
  destruct (IH s3 ltac:(simpl in Hlen; lia) rest) as [IH1 IH2].
  assert (Hcopy : forall hi p,
            parse_chars hi (String c1 (String c2 (String c3 (quote_body_from p s3)))
                            +:+ String dq rest)
            = Some (flush hi +:+ String c1 (String c2 (String c3 s3)), rest)).
  { intros hi p. rewrite !sapp_cons, (parse_raw hi), (parse_raw None), (parse_raw None), IH1
      by assumption.
    rewrite !prepend_value. now snorm. }
  assert (Hesc : forall hi, (hi = None \/ is_low cu = false) ->
            parse_chars hi (("\u" +:+ hex4 cu +:+ quote_body_from false s3) +:+ String dq rest)
            = Some (flush hi +:+ String c1 (String c2 (String c3 s3)), rest)
            \/ low_ahead s3 = true /\ is_high cu = true).
  { intros hi Hhi. destruct (is_high cu && low_ahead s3) eqn:Hpair.
    { apply andb_true_iff in Hpair as [? ?]. right. split; assumption. }
    left. rewrite !sapp_assoc, (parse_unit hi cu x y z w _ Hhex Hval). unfold push_unit.
    destruct (is_high cu) eqn:Hhigh.
    - cbn [andb] in Hpair. rewrite (IH2 cu Hpair), prepend_value, Hu. now snorm.
    - destruct hi as [h|].
      + destruct Hhi as [Hhi|Hlow]; [discriminate|]. rewrite Hlow, IH1, prepend_value, Hu.
        now snorm.
      + rewrite IH1, prepend_value, Hu. now snorm. }
  split.
  - intros paired.
    destruct (if is_high cu then low_ahead s3 else paired) eqn:Hc.
    + now rewrite Hcopy.
    + destruct (Hesc None (or_introl eq_refl)) as [->|[Hl Hh]]; [reflexivity|].
      rewrite Hh, Hl in Hc. discriminate.
  - intros h Hlow. cbn [low_ahead] in Hlow. rewrite Hsur in Hlow.
    destruct (if is_high cu then low_ahead s3 else false) eqn:Hc.
    + now rewrite Hcopy.
    + destruct (Hesc (Some h) (or_intror Hlow)) as [->|[Hl Hh]]; [reflexivity|].
      rewrite Hh, Hl in Hc. discriminate.
Qed.

Lemma parse_chars_quote_body s rest :
  parse_chars None (quote_body s +:+ String dq rest) = Some (s, rest).
Proof. apply (parse_chars_quote_from (String.length s) s (le_n _) rest). Qed.

(* Numbers *)

Lemma num_step_number_char st c st' : num_step st c = Some st' -> number_char c = true.
Proof.
  destruct c as [[] [] [] [] [] [] [] []]; destruct st; intros H;
    solve [reflexivity | discriminate H].
Qed.

Lemma span_number_run s : forall st rest,
  num_run st s = true -> rest_ok rest -> span_number (s +:+ rest) = (s, rest).
Proof.
  induction s as [|c s IH]; intros st rest Hrun Hrest.
  - rewrite sapp_nil_l. destruct rest as [|c r]; [reflexivity|].
    simpl in *. now rewrite Hrest.
  - rewrite sapp_cons. cbn [num_run] in Hrun. cbn [span_number].
    destruct (num_step st c) as [st'|] eqn:Hstep; [|discriminate].
    rewrite (num_step_number_char _ _ _ Hstep), (IH st' rest Hrun Hrest). reflexivity.
Qed.

Lemma parse_value_number fuel c s :
  ((code c =? 45)%N || is_digit c) = true ->
  parse_value (S fuel) (String c s) =
    let (tok, r) := span_number (String c s) in
    if is_json_number tok then Some (VNum tok, r) else None.
Proof.
  destruct c as [[] [] [] [] [] [] [] []]; intros H;
    solve [discriminate H | reflexivity].
Qed.

Lemma number_head lit :
  is_json_number lit = true ->
  exists c s, lit = String c s /\ ((code c =? 45)%N || is_digit c) = true.
Proof.
  destruct lit as [|c s]; [discriminate|]. intros H. exists c, s. split; [reflexivity|].
  unfold is_json_number in H. cbn [num_run] in H.
  destruct (num_step NStart c) eqn:Hstep; [|discriminate].
  clear H. unfold num_step in Hstep.
  destruct (code c =? 45)%N; [reflexivity|].
  destruct (code c =? 48)%N eqn:H0.
  - apply N.eqb_eq in H0. unfold is_digit. rewrite H0. reflexivity.
  - destruct (is_digit c); [reflexivity | discriminate].
Qed.

Lemma parse_number fuel lit rest :
  is_json_number lit = true -> rest_ok rest ->
  parse_value (S fuel) (lit +:+ rest) = Some (VNum lit, rest).
Proof.
  intros Hlit Hrest. destruct (number_head lit Hlit) as (c & s & -> & Hc).
  rewrite sapp_cons, (parse_value_number _ _ _ Hc), <- sapp_cons.
  rewrite (span_number_run _ NStart rest Hlit Hrest). now rewrite Hlit.
Qed.

(* Objects *)

Lemma has_property_false k (props : list (string * value)) :
  Forall (fun kv => String.eqb k (fst kv) = false) props -> has_property k props = false.
Proof.
  induction 1 as [|[k' v'] l Hk _ IH]; [reflexivity|].
  simpl in *. now rewrite Hk, IH.
Qed.

Lemma add_property_last k v (props : list (string * value)) :
  Forall (fun kv => key_before k (fst kv) = false) props ->
  add_property k v props = props ++ [(k, v)].
Proof.
  induction 1 as [|[k' v'] l Hk _ IH]; [reflexivity|].
  simpl in *. now rewrite Hk, IH.
Qed.

Lemma keys_wf_app_cons (l1 : list string) k l2 :
  keys_wf (l1 ++ k :: l2) = true ->
  Forall (fun k' => String.eqb k k' = false /\ key_before k k' = false) l1.
Proof.
  induction l1 as [|k1 l1 IH]; intros H; [constructor|].
  simpl in H. apply andb_true_iff in H as [Hall Hwf].
  constructor; [|now apply IH].
  rewrite forallb_app in Hall. apply andb_true_iff in Hall as [_ Hall].
  simpl in Hall. apply andb_true_iff in Hall as [Hk _].
  apply andb_true_iff in Hk as [Hne Hbefore].
  split; [now apply negb_true_iff in Hne | now apply negb_true_iff in Hbefore].
Qed.

Lemma fold_define_property (l2 : list (string * value)) : forall l1,
  keys_wf (map fst (l1 ++ l2)) = true ->
  fold_left define_property l2 l1 = l1 ++ l2.
Proof.
  induction l2 as [|[k v] l2 IH]; intros l1 Hwf.
  - now rewrite app_nil_r.
  - simpl. rewrite map_app in Hwf. simpl in Hwf.
    pose proof (keys_wf_app_cons _ _ _ Hwf) as Hall.
    unfold define_property. simpl.
    rewrite has_property_false, add_property_last.
    + rewrite IH; [now rewrite <- List.app_assoc|].
      rewrite <- List.app_assoc. simpl. now rewrite map_app.
    + apply Forall_map in Hall. eapply Forall_impl; [exact Hall|]. now intros ? [_ ?].
    + apply Forall_map in Hall. eapply Forall_impl; [exact Hall|]. now intros ? [? _].
Qed.

Lemma build_object_wf (props : list (string * value)) :
  keys_wf (map fst props) = true -> build_object props = props.
Proof. intros H. unfold build_object. now rewrite fold_define_property. Qed.

(* Values *)

Lemma stringify_head v :
  wf v = true -> exists c s, stringify v = String c s /\ value_start c = true.
Proof.
  destruct v as [|[]|lit|s|items|props]; intros Hwf;
    try (eexists _, _; split; [reflexivity|reflexivity]).
  destruct (number_head lit Hwf) as (c & s & -> & Hc).
  exists c, s. split; [reflexivity|].
  unfold value_start. apply orb_true_iff in Hc as [Hc|Hc]; rewrite Hc;
    rewrite ?orb_true_r; reflexivity.
Qed.

Lemma parse_value_array fuel c s :
  value_start c = true ->
  parse_value (S fuel) (String "["%char (String c s)) =
    match parse_elements fuel (String c s) with
    | Some (items, r) => Some (VArr items, r)
    | None => None
    end.
Proof.
  destruct c as [[] [] [] [] [] [] [] []]; intros H;
    solve [discriminate H | reflexivity].
Qed.

Lemma parse_value_object fuel s :
  parse_value (S fuel) (String "{"%char (String dq s)) =
    match parse_members fuel (String dq s) with
    | Some (members, r) => Some (VObj (build_object members), r)
    | None => None
    end.
Proof. reflexivity. Qed.

Lemma parse_elements_last fuel v rest :
  parse_value fuel (stringify v +:+ String "]"%char rest) = Some (v, String "]"%char rest) ->
  parse_elements (S fuel) (stringify v +:+ String "]"%char rest) = Some ([v], rest).
Proof. intros H. cbn [parse_elements]. unfold elements_body. rewrite H. reflexivity. Qed.

Lemma parse_elements_more fuel v tail vs rest :
  parse_value fuel (stringify v +:+ String ","%char tail) = Some (v, String ","%char tail) ->
  parse_elements fuel tail = Some (vs, rest) ->
  parse_elements (S fuel) (stringify v +:+ String ","%char tail) = Some (v :: vs, rest).
Proof.
  intros H1 H2. cbn [parse_elements]. unfold elements_body. rewrite H1. simpl.
  rewrite H2. reflexivity.
Qed.

Lemma member_eq k v tail :
  member (k, v) +:+ tail =
  String dq (quote_body k +:+ String dq (String ":"%char (stringify v +:+ tail))).
Proof.
  unfold member, quote. cbn [fst snd]. snorm. reflexivity.
Qed.

Lemma parse_members_last fuel k v rest :
  parse_value fuel (stringify v +:+ String "}"%char rest) = Some (v, String "}"%char rest) ->
  parse_members (S fuel) (member (k, v) +:+ String "}"%char rest) = Some ([(k, v)], rest).
Proof.
  intros H. rewrite member_eq. cbn [parse_members]. unfold members_body.
  simpl skip_ws. simpl negb.
  cbv iota. rewrite parse_chars_quote_body. simpl skip_ws. simpl negb. cbv iota.
  rewrite H. reflexivity.
Qed.

Lemma parse_members_more fuel k v tail ms rest :
  parse_value fuel (stringify v +:+ String ","%char tail) = Some (v, String ","%char tail) ->
  parse_members fuel tail = Some (ms, rest) ->
  parse_members (S fuel) (member (k, v) +:+ String ","%char tail) = Some ((k, v) :: ms, rest).
Proof.
  intros H1 H2. rewrite member_eq. cbn [parse_members]. unfold members_body.
  simpl skip_ws. simpl negb.
  cbv iota. rewrite parse_chars_quote_body. simpl skip_ws. simpl negb. cbv iota.
  rewrite H1. simpl. rewrite H2. reflexivity.
Qed.

Lemma parse_elements_join (items : list value) : forall fuel rest,
  items <> [] ->
  Forall parses items ->
  (list_sum (map (fun x => S (size x)) items) <= fuel)%nat ->
  parse_elements fuel (join "," (map stringify items) +:+ String "]"%char rest)
    = Some (items, rest).
Proof.
  induction items as [|x items IH]; intros fuel rest Hne Hall Hfuel; [congruence|].
  apply Forall_cons in Hall as [Hx Hall].
  simpl in Hfuel.
  destruct fuel as [|fuel]; [lia|].
  destruct items as [|y items].
  - cbn [map join]. apply parse_elements_last. apply Hx; [simpl in Hfuel; lia | reflexivity].
  - change (join "," (map stringify (x :: y :: items)))
      with (stringify x +:+ "," +:+ join "," (map stringify (y :: items))).
    snorm.
    apply parse_elements_more.
    + apply Hx; [lia | reflexivity].
    + apply IH; [congruence | assumption | lia].
Qed.

Lemma parse_members_join (props : list (string * value)) : forall fuel rest,
  props <> [] ->
  Forall (fun kv => parses (snd kv)) props ->
  (list_sum (map (fun kv => S (size (snd kv))) props) <= fuel)%nat ->
  parse_members fuel (join "," (map member props) +:+ String "}"%char rest)
    = Some (props, rest).
Proof.
  induction props as [|[k v] props IH]; intros fuel rest Hne Hall Hfuel; [congruence|].
  apply Forall_cons in Hall as [Hx Hall]. cbn [snd] in Hx.
  simpl in Hfuel.
  destruct fuel as [|fuel]; [lia|].
  destruct props as [|kv props].
  - cbn [map join]. apply parse_members_last. apply Hx; [simpl in Hfuel; lia | reflexivity].
  - change (join "," (map member ((k, v) :: kv :: props)))
      with (member (k, v) +:+ "," +:+ join "," (map member (kv :: props))).
    snorm.
    apply parse_members_more.
    + apply Hx; [lia | reflexivity].
    + apply IH; [congruence | assumption | lia].
Qed.

Lemma parse_value_stringify v : wf v = true -> parses v.
Proof.
  induction v as [|b|lit|s|items IH|props IH] using value_ind;
    intros Hwf fuel rest Hfuel Hrest;
    (destruct fuel as [|fuel]; [simpl in Hfuel; lia|]).
  - reflexivity.
  - destruct b; reflexivity.
  - now apply parse_number.
  - cbn [stringify]. unfold quote. snorm.
    cbn [parse_value]. unfold value_body. simpl skip_ws. cbv iota. simpl N.eqb. cbv iota.
    rewrite parse_chars_quote_body. reflexivity.
  - cbn [stringify wf] in *.
    destruct items as [|x items]; [reflexivity|].
    assert (Hall : Forall parses (x :: items)).
    { rewrite forallb_forall in Hwf. rewrite Forall_forall in IH |- *.
      intros y Hy. apply IH; [assumption|]. apply Hwf. now apply list_elem_of_In. }
    assert (Hx : wf x = true) by (simpl in Hwf; now apply andb_true_iff in Hwf as [? _]).
    destruct (stringify_head x Hx) as (c & s & Hs & Hc).
    snorm.
    assert (Hhead : exists s', join "," (map stringify (x :: items)) +:+ String "]"%char rest
                               = String c s').
    { destruct items; cbn [map join]; rewrite Hs, ?sapp_cons; eauto. }
    destruct Hhead as [s' Hs'].
    rewrite Hs', (parse_value_array _ _ _ Hc), <- Hs'.
    rewrite parse_elements_join; [reflexivity | congruence | assumption |].
    cbn [size] in Hfuel. lia.
  - cbn [stringify wf] in *. apply andb_true_iff in Hwf as [Hkeys Hwf].
    destruct props as [|[k v] props]; [reflexivity|].
    assert (Hall : Forall (fun kv => parses (snd kv)) ((k, v) :: props)).
    { rewrite forallb_forall in Hwf. rewrite Forall_forall in IH |- *.
      intros y Hy. apply IH; [assumption|]. apply Hwf. now apply list_elem_of_In. }
    snorm.
    fold member.
    assert (Hhead : exists s', join "," (map member ((k, v) :: props)) +:+ String "}"%char rest
                               = String dq s').
    { destruct props; cbn [map join]; unfold member at 1, quote; cbn [fst];
        rewrite ?sapp_cons; eauto. }
    destruct Hhead as [s' Hs'].
    rewrite Hs', parse_value_object, <- Hs'.
    rewrite parse_members_join; [| congruence | assumption |].
    + now rewrite build_object_wf.
    + cbn [size] in Hfuel. lia.
Qed.

(* The fuel that [parse] allots covers every text that [stringify] prints. *)

Lemma length_join_bound {A : Type} (f : A -> string) (g : A -> nat) (l : list A) :
  Forall (fun a => (g a <= String.length (f a))%nat) l ->
  (list_sum (map (fun a => S (g a)) l) <= S (String.length (join "," (map f l))))%nat.
Proof.
  induction 1 as [|a l Ha Hl IH]; [simpl; lia|].
  destruct l as [|b l].
  - simpl. lia.
  - change (join "," (map f (a :: b :: l)))
      with (f a +:+ "," +:+ join "," (map f (b :: l))).
    rewrite !sapp_length. change (String.length ",") with 1%nat.
    change (list_sum (map (fun a => S (g a)) (a :: b :: l)))
      with (S (g a) + list_sum (map (fun a => S (g a)) (b :: l)))%nat.
    lia.
Qed.

Lemma size_le_length v : wf v = true -> (size v <= String.length (stringify v))%nat.
Proof.
  induction v as [|b|lit|s|items IH|props IH] using value_ind; intros Hwf.
  - simpl. lia.
  - destruct b; simpl; lia.
  - destruct (number_head lit Hwf) as (c & s & -> & _). simpl. lia.
  - simpl. lia.
  - cbn [stringify size wf] in *. rewrite !sapp_length.
    change (String.length "[") with 1%nat. change (String.length "]") with 1%nat.
    assert (Hall : Forall (fun x => (size x <= String.length (stringify x))%nat) items).
    { rewrite forallb_forall in Hwf. rewrite Forall_forall in IH |- *.
      intros y Hy. apply IH; [assumption|]. apply Hwf. now apply list_elem_of_In. }
    pose proof (length_join_bound stringify size items Hall). lia.
  - cbn [stringify size wf] in *. apply andb_true_iff in Hwf as [_ Hwf].
    rewrite !sapp_length.
    change (String.length "{") with 1%nat. change (String.length "}") with 1%nat.
    fold member.
    assert (Hall : Forall (fun kv => (size (snd kv) <= String.length (member kv))%nat) props).
    { rewrite forallb_forall in Hwf. rewrite Forall_forall in IH |- *.
      intros y Hy. unfold member. rewrite !sapp_length.
      assert (size (snd y) <= String.length (stringify (snd y)))%nat; [|lia].
      apply IH; [assumption|]. apply Hwf. now apply list_elem_of_In. }
    pose proof (length_join_bound member (fun kv => size (snd kv)) props Hall). lia.
Qed.

Lemma parse_stringify v : wf v = true -> JSON.parse (stringify v) = Some v.
Proof.
  intros Hwf. unfold JSON.parse.
  rewrite <- (sapp_nil_r (stringify v)) at 2.
  rewrite (parse_value_stringify v Hwf); [reflexivity | | exact I].
  pose proof (size_le_length v Hwf). lia.
Qed.

Lemma stringify_nonempty v : wf v = true -> exists c s, stringify v = String c s.
Proof. intros Hwf. destruct (stringify_head v Hwf) as (c & s & H & _). eauto. Qed.

(* The fuel of [parse] *)

#[local] Open Scope nat_scope.

Lemma skip_ws_length s : String.length (skip_ws s) <= String.length s.
Proof.
  induction s as [|c s IH]; [reflexivity|].
  cbn [skip_ws]. destruct (is_ws c); cbn [String.length]; lia.
Qed.

Lemma skip_ws_cons s c s1 : skip_ws s = String c s1 -> String.length s1 < String.length s.
Proof. intros H. pose proof (skip_ws_length s) as Hl. rewrite H in Hl. simpl in Hl. lia. Qed.

Lemma strip_prefix_length p : forall s r,
  strip_prefix p s = Some r -> String.length r <= String.length s.
Proof.
  induction p as [|a p IH]; intros [|b s] r H; simpl in H; try discriminate.
  - injection H as <-. lia.
  - injection H as <-. lia.
  - destruct (Ascii.eqb a b); [|discriminate]. apply IH in H. simpl. lia.
Qed.

Lemma prepend_some p x str r :
  prepend p x = Some (str, r) -> exists str', x = Some (str', r).
Proof. destruct x as [[s' r']|]; simpl; [|discriminate]. intros H. injection H as _ <-. eauto. Qed.

Lemma parse_chars_length n : forall s hi str r,
  String.length s <= n -> parse_chars hi s = Some (str, r) ->
  String.length r < String.length s.
Proof.
  induction n as [|n IH]; intros s hi str r Hn H.
  - destruct s; [discriminate|simpl in Hn; lia].
  - destruct s as [|c s1]; [discriminate|]. cbn [parse_chars] in H. simpl in Hn.
    destruct (code c =? 34)%N.
    { injection H as _ <-. simpl. lia. }
    destruct (code c =? 92)%N.
    + destruct s1 as [|e s2]; [discriminate|].
      destruct (code e =? 117)%N.
      * destruct s2 as [|h1 [|h2 [|h3 [|h4 s3]]]]; try discriminate.
        destruct (hex4_value h1 h2 h3 h4); [|discriminate].
        destruct (push_unit hi n0) as [out hi'].
        apply prepend_some in H as [str' H]. apply IH in H; simpl in *; lia.
      * destruct (simple_escape e); [|discriminate].
        apply prepend_some in H as [str' H]. apply IH in H; simpl in *; lia.
    + destruct (code c <? 32)%N; [discriminate|].
      apply prepend_some in H as [str' H]. apply IH in H; simpl in *; lia.
Qed.

Lemma span_number_length s : forall tok r,
  span_number s = (tok, r) -> String.length tok + String.length r = String.length s.
Proof.
  induction s as [|c s IH]; intros tok r H; cbn [span_number] in H.
  - injection H as <- <-. reflexivity.
  - destruct (number_char c).
    + destruct (span_number s) as [tok' r']. injection H as <- <-.
      simpl. specialize (IH _ _ eq_refl). lia.
    + injection H as <- <-. reflexivity.
Qed.

Ltac break_parser H :=
  repeat match type of H with
         | (if ?b then _ else _) = _ => destruct b eqn:?
         | match ?x with _ => _ end = _ => destruct x eqn:?
         | (let (_, _) := ?x in _) = _ => destruct x eqn:?
         end;
  try discriminate H.

Ltac lengths He Hm :=
  repeat match goal with
         | E : strip_prefix _ _ = Some _ |- _ => apply strip_prefix_length in E
         | E : parse_chars _ _ = Some _ |- _ =>
             apply (parse_chars_length _ _ _ _ _ (Nat.le_refl _)) in E
         | E : skip_ws _ = String _ _ |- _ => apply skip_ws_cons in E
         | E : span_number _ = _ |- _ => apply span_number_length in E
         | E : is_json_number ?t = true |- _ =>
             destruct (number_head t E) as (? & ? & -> & _); clear E
         | E : _ = Some _ |- _ => first [apply He in E | apply Hm in E]
         end;
  cbn [String.length] in *.

Lemma value_body_consumes elements members :
  consumes elements -> consumes members -> consumes (value_body elements members).
Proof.
  intros He Hm s v r H. unfold value_body in H. cbv zeta in H.
  break_parser H; injection H as <- <-; lengths He Hm; lia.
Qed.

Lemma elements_body_consumes val elements :
  consumes val -> consumes elements -> consumes (elements_body val elements).
Proof.
  intros He Hm s v r H. unfold elements_body in H.
  break_parser H; injection H as <- <-; lengths He Hm; lia.
Qed.

Lemma members_body_consumes val members :
  consumes val -> consumes members -> consumes (members_body val members).
Proof.
  intros He Hm s v r H. unfold members_body in H.
  break_parser H; injection H as <- <-; lengths He Hm; lia.
Qed.

Lemma parsers_consume fuel :
  consumes (parse_value fuel) /\ consumes (parse_elements fuel)
  /\ consumes (parse_members fuel).
Proof.
  induction fuel as [|fuel (IHv & IHe & IHm)].
  - repeat split; intros s a r H; discriminate H.
  - split; [|split]; intros s a r H; cbn [parse_value parse_elements parse_members] in H.
    + eapply value_body_consumes; [exact IHe | exact IHm | exact H].
    + eapply elements_body_consumes; [exact IHv | exact IHe | exact H].
    + eapply members_body_consumes; [exact IHv | exact IHm | exact H].
Qed.

Lemma value_body_agree e e' m m' s :
  agree_below (String.length s) e e' -> agree_below (String.length s) m m' ->
  value_body e m s = value_body e' m' s.
Proof.
  intros He Hm. unfold value_body. cbv zeta.
  destruct (skip_ws s) as [|c s1] eqn:Hs; [reflexivity|]. apply skip_ws_cons in Hs.
  rewrite (He s1 Hs), (Hm s1 Hs). reflexivity.
Qed.

Lemma elements_body_agree v v' e e' s :
  consumes v ->
  agree_below (S (String.length s)) v v' -> agree_below (String.length s) e e' ->
  elements_body v e s = elements_body v' e' s.
Proof.
  intros Hc Hv He. unfold elements_body.
  rewrite <- (Hv s) by lia.
  destruct (v s) as [[x r]|] eqn:Hx; [|reflexivity]. apply Hc in Hx.
  destruct (skip_ws r) as [|c r1] eqn:Hr; [reflexivity|]. apply skip_ws_cons in Hr.
  rewrite (He r1) by lia. reflexivity.
Qed.

Lemma members_body_agree v v' m m' s :
  consumes v ->
  agree_below (String.length s) v v' -> agree_below (String.length s) m m' ->
  members_body v m s = members_body v' m' s.
Proof.
  intros Hc Hv Hm. unfold members_body.
  destruct (skip_ws s) as [|c s1] eqn:Hs; [reflexivity|]. apply skip_ws_cons in Hs.
  destruct (negb (code c =? 34)%N); [reflexivity|].
  destruct (parse_chars None s1) as [[k r]|] eqn:Hk; [|reflexivity].
  apply (parse_chars_length _ _ _ _ _ (Nat.le_refl _)) in Hk.
  destruct (skip_ws r) as [|c2 r1] eqn:Hr; [reflexivity|]. apply skip_ws_cons in Hr.
  destruct (negb (code c2 =? 58)%N); [reflexivity|].
  rewrite <- (Hv r1) by lia.
  destruct (v r1) as [[x r2]|] eqn:Hx; [|reflexivity]. apply Hc in Hx.
  destruct (skip_ws r2) as [|c3 r3] eqn:Hr2; [reflexivity|]. apply skip_ws_cons in Hr2.
  rewrite (Hm r3) by lia. reflexivity.
Qed.

(* Beyond twice the length of the text, one more unit of fuel changes nothing. *)
Lemma fuel_step fuel :
  (forall s, 2 * String.length s + 1 <= fuel -> parse_value fuel s = parse_value (S fuel) s) /\
  (forall s, 2 * String.length s + 2 <= fuel ->
             parse_elements fuel s = parse_elements (S fuel) s) /\
  (forall s, 2 * String.length s + 2 <= fuel ->
             parse_members fuel s = parse_members (S fuel) s).
Proof.
  induction fuel as [|fuel (IHv & IHe & IHm)].
  - repeat split; intros s H; lia.
  - destruct (parsers_consume fuel) as (Hcv & _ & _).
    split; [|split]; intros s H.
    + change (value_body (fun s' => parse_elements fuel s') (fun s' => parse_members fuel s') s
              = value_body (fun s' => parse_elements (S fuel) s')
                  (fun s' => parse_members (S fuel) s') s).
      apply value_body_agree; intros s' Hs'; [apply IHe | apply IHm]; lia.
    + change (elements_body (fun s' => parse_value fuel s') (fun s' => parse_elements fuel s') s
              = elements_body (fun s' => parse_value (S fuel) s')
                  (fun s' => parse_elements (S fuel) s') s).
      apply elements_body_agree; [exact Hcv | |]; intros s' Hs'; [apply IHv | apply IHe]; lia.
    + change (members_body (fun s' => parse_value fuel s') (fun s' => parse_members fuel s') s
              = members_body (fun s' => parse_value (S fuel) s')
                  (fun s' => parse_members (S fuel) s') s).
      apply members_body_agree; [exact Hcv | |]; intros s' Hs'; [apply IHv | apply IHm]; lia.
Qed.

(* The fuel that [parse] allots is enough: with any more, the result is the same. *)
Theorem parse_value_fuel s fuel :
  2 * String.length s + 2 <= fuel ->
  parse_value fuel s = parse_value (2 * String.length s + 2) s.
Proof.
  intros H. induction H as [|fuel H IH]; [reflexivity|].
  rewrite <- IH. symmetry. apply (proj1 (fuel_step fuel)). lia.
Qed.

#[local] Close Scope nat_scope.

Example stringify_example :
  stringify (VObj [("a", VNum "1.5"); ("b", VArr [VStr "x/y"; VNull; VBool true]); ("c", VObj [])])
  = sq "{'a':1.5,'b':['x/y',null,true],'c':{}}".
Proof. vm_compute. reflexivity. Qed.

Example stringify_escapes :
  stringify (VStr (String (chr 10) (String dq (String "\"%char (String (chr 1) "z")))))
  = String dq ("\n\" +:+ String dq ("\\\u0001z" +:+ String dq EmptyString)).
Proof. vm_compute. reflexivity. Qed.

Example parse_whitespace :
  parse (sq " { 'a' : [ 1 , 2.50 , -3e+7 ] , 'b' : 'text' } ")
  = Some (VObj [("a", VArr [VNum "1"; VNum "2.50"; VNum "-3e+7"]); ("b", VStr "text")]).
Proof. vm_compute. reflexivity. Qed.

(* A repeated key keeps its place and takes the last value; array indices come
   first, in ascending order. *)
Example parse_key_order :
  parse (sq "{'b':1,'2':[],'1':{},'b':2,'01':3,'0':4}")
  = Some (VObj [("0", VNum "4"); ("1", VObj []); ("2", VArr []); ("b", VNum "2");
                ("01", VNum "3")]).
Proof. vm_compute. reflexivity. Qed.

Example parse_escapes :
  parse (sq "'aA\n\/é'") = Some (VStr (String "a" (String "A" (String (chr 10)
    (String "/" (String (chr 195) (String (chr 169) EmptyString))))))).
Proof. vm_compute. reflexivity. Qed.

Example parse_rejects :
  map parse [EmptyString; "tru"; "[1,]"; "[1 2]"; "01"; "1."; "-"; sq "{'a'}"; sq "'abc";
             sq "'a\qb'"; "nulll"; "[1]]"]
  = [None; None; None; None; None; None; None; None; None; None; None; None].
Proof. vm_compute. reflexivity. Qed.

End JSONFacts.

(** ** Runs of the POST handler, path by path *)

Section ProxyFacts.

Variable process_env : gmap string string.

#[local] Opaque makeKey.

Lemma since_app (w w' : world) (evs : list event) :
  trace w' = trace w ++ evs -> since w w' = evs.
Proof. intros H. unfold since. rewrite H. apply drop_app_length. Qed.

Lemma logged_app (w w' : world) (ls : list (list log_arg)) :
  console w' = console w ++ ls -> logged w w' = ls.
Proof. intros H. unfold logged. rewrite H. apply drop_app_length. Qed.

Lemma truthy_false cached :
  truthy cached = false -> cached = None \/ cached = Some EmptyString.
Proof. destruct cached as [[|c s]|]; [auto | discriminate | auto]. Qed.

(* redis.get rejects. *)
Lemma run_read_fails body w msg :
  redis_get_error w = Some msg ->
  handle_post process_env body w =
    ({| statusCode := 500; headers := []; body_sent := Some internal_error |},
     with_log (error_line msg) (emit (RedisGet (makeKey body)) w)).
Proof.
  intros Hget. unfold handle_post, post_root, try_catch, mbind, M_bind, lift, redis_get.
  simpl. rewrite Hget. simpl. destruct msg; reflexivity.
Qed.

(* A hit whose text parses. *)
Lemma run_hit body w c text v :
  redis_get_error w = None ->
  redis_lookup w (makeKey body) = Some (String c text) ->
  JSON.parse (String c text) = Some v ->
  handle_post process_env body w =
    ({| statusCode := 200; headers := [("X-Cache", "HIT")]; body_sent := Some v |},
     emit (RedisGet (makeKey body)) w).
Proof.
  intros Hget Hlook Hparse.
  unfold handle_post, post_root, try_catch, mbind, M_bind, lift, redis_get, JSON_parse.
  simpl. rewrite Hget, Hlook. simpl. rewrite Hparse. reflexivity.
Qed.

(* A hit whose text does not parse. *)
Lemma run_hit_garbled body w c text :
  redis_get_error w = None ->
  redis_lookup w (makeKey body) = Some (String c text) ->
  JSON.parse (String c text) = None ->
  handle_post process_env body w =
    ({| statusCode := 500; headers := [("X-Cache", "HIT")]; body_sent := Some internal_error |},
     with_log (error_line "Unexpected token in JSON") (emit (RedisGet (makeKey body)) w)).
Proof.
  intros Hget Hlook Hparse.
  unfold handle_post, post_root, try_catch, mbind, M_bind, lift, redis_get, JSON_parse.
  simpl. rewrite Hget, Hlook. simpl. rewrite Hparse. reflexivity.
Qed.

(* A miss answered with a status other than 200. *)
Lemma run_miss_other body w r :
  redis_get_error w = None ->
  truthy (redis_lookup w (makeKey body)) = false ->
  upstream_post w (VROOM_URL process_env) body = Responds r ->
  status r <> 200 ->
  handle_post process_env body w =
    ({| statusCode := status r; headers := [("X-Cache", "MISS")];
        body_sent := Some (data r) |},
     emit (HttpPost (VROOM_URL process_env) body 60000) (emit (RedisGet (makeKey body)) w)).
Proof.
  intros Hget Hmiss Hup Hst. apply Z.eqb_neq in Hst.
  unfold handle_post, post_root, try_catch, mbind, M_bind, lift, redis_get, axios_post, settle.
  simpl. rewrite Hget.
  destruct (truthy_false _ Hmiss) as [-> | ->]; simpl; rewrite Hup; simpl;
    rewrite orb_true_r; simpl; rewrite Hst; reflexivity.
Qed.

(* A miss answered with 200, written to the cache. *)
Lemma run_miss_200 body w r :
  redis_get_error w = None ->
  truthy (redis_lookup w (makeKey body)) = false ->
  upstream_post w (VROOM_URL process_env) body = Responds r ->
  status r = 200 ->
  redis_set_error w = None ->
  handle_post process_env body w =
    ({| statusCode := 200; headers := [("X-Cache", "MISS")]; body_sent := Some (data r) |},
     with_db (<[makeKey body := (JSON.stringify (data r), now w + 3600 * 1000)]> (redis_db w))
       (emit (RedisSetEx (makeKey body) 3600 (JSON.stringify (data r)))
          (emit (HttpPost (VROOM_URL process_env) body 60000)
             (emit (RedisGet (makeKey body)) w)))).
Proof.
  intros Hget Hmiss Hup Hst Hset.
  unfold handle_post, post_root, try_catch, mbind, M_bind, lift, redis_get, axios_post, settle,
    redis_setEx.
  simpl. rewrite Hget.
  destruct (truthy_false _ Hmiss) as [-> | ->]; simpl; rewrite Hup; simpl;
    rewrite orb_true_r; simpl; rewrite Hst; simpl; rewrite Hset; reflexivity.
Qed.

(* A miss answered with 200, while redis.setEx rejects. *)
Lemma run_miss_200_write_fails body w r msg :
  redis_get_error w = None ->
  truthy (redis_lookup w (makeKey body)) = false ->
  upstream_post w (VROOM_URL process_env) body = Responds r ->
  status r = 200 ->
  redis_set_error w = Some msg ->
  handle_post process_env body w =
    ({| statusCode := 500; headers := []; body_sent := Some internal_error |},
     with_log (error_line msg)
       (emit (RedisSetEx (makeKey body) 3600 (JSON.stringify (data r)))
          (emit (HttpPost (VROOM_URL process_env) body 60000)
             (emit (RedisGet (makeKey body)) w)))).
Proof.
  intros Hget Hmiss Hup Hst Hset.
  unfold handle_post, post_root, try_catch, mbind, M_bind, lift, redis_get, axios_post, settle,
    redis_setEx.
  simpl. rewrite Hget.
  destruct (truthy_false _ Hmiss) as [-> | ->]; simpl; rewrite Hup; simpl;
    rewrite orb_true_r; simpl; rewrite Hst; simpl; rewrite Hset; simpl;
    destruct msg; reflexivity.
Qed.

(* A miss that the upstream never answers. *)
Lemma run_miss_no_response body w code msg cfg :
  redis_get_error w = None ->
  truthy (redis_lookup w (makeKey body)) = false ->
  upstream_post w (VROOM_URL process_env) body = Fails (AxiosError code msg cfg true None) ->
  handle_post process_env body w =
    ({| statusCode := 502; headers := []; body_sent := Some (bad_gateway (or_else code "EAXIOS")) |},
     with_log [LStr "Request error:"; LStr (or_else code msg); LConfig cfg]
       (emit (HttpPost (VROOM_URL process_env) body 60000)
          (emit (RedisGet (makeKey body)) w))).
Proof.
  intros Hget Hmiss Hup.
  unfold handle_post, post_root, try_catch, mbind, M_bind, lift, redis_get, axios_post.
  simpl. rewrite Hget.
  destruct (truthy_false _ Hmiss) as [-> | ->]; simpl; rewrite Hup; reflexivity.
Qed.

End ProxyFacts.

(* The catch block handles every error: the handler itself never rejects. *)
Lemma post_root_catch_returns (err : js_error) (h : hstate) :
  exists h', post_root_catch err h = (Ok tt, h').
Proof.
  unfold post_root_catch, mbind, M_bind, lift, console_error, res_status, res_json.
  destruct (if isAxiosError err then err_response err else None);
    [|destruct (isAxiosError err && err_request err)]; simpl; eauto.
Qed.

Lemma post_root_returns (env : gmap string string) (body : value) (h : hstate) :
  exists h', post_root env body h = (Ok tt, h').
Proof.
  unfold post_root, try_catch.
  match goal with |- context [match ?m h with _ => _ end] => destruct (m h) as [[[]|e] h1] end.
  - eauto.
  - apply post_root_catch_returns.
Qed.

Example key_of_example_body :
  makeKey example_body = "vroom:c18a5f206295df916367d2b0e839dcc3".
Proof. vm_compute. reflexivity. Qed.

(* The running example: a miss answered with 200, then the same request again. *)
Example run_example_miss_then_hit :
  let w := healthy (answer 200 example_solution) in
  let first := handle_post ∅ example_body w in
  let second := handle_post ∅ example_body (advance 1 (snd first)) in
  fst first = {| statusCode := 200; headers := [("X-Cache", "MISS")];
                 body_sent := Some example_solution |} /\
  redis_db (snd first)
    = {[ "vroom:c18a5f206295df916367d2b0e839dcc3" := (sq "{'code':0,'routes':[]}", 3600000) ]} /\
  fst second = {| statusCode := 200; headers := [("X-Cache", "HIT")];
                  body_sent := Some example_solution |} /\
  trace (snd second)
    = [RedisGet "vroom:c18a5f206295df916367d2b0e839dcc3";
       HttpPost "http://vroom:3000" example_body 60000;
       RedisSetEx "vroom:c18a5f206295df916367d2b0e839dcc3" 3600 (sq "{'code':0,'routes':[]}");
       RedisGet "vroom:c18a5f206295df916367d2b0e839dcc3"].
Proof. vm_compute. repeat split; reflexivity. Qed.

(* Once the hour has passed, the entry is gone and the request is forwarded again. *)
Example run_example_expired :
  let w := healthy (answer 200 example_solution) in
  let first := handle_post ∅ example_body w in
  let later := handle_post ∅ example_body (advance 3600001 (snd first)) in
  header "X-Cache" (headers (fst later)) = Some "MISS" /\
  since (advance 3600001 (snd first)) (snd later)
    = [RedisGet (makeKey example_body); HttpPost "http://vroom:3000" example_body 60000;
       RedisSetEx (makeKey example_body) 3600 (JSON.stringify example_solution)].
Proof. vm_compute. repeat split; reflexivity. Qed.

(** ** The claims *)

Lemma le_bytes_range (n : nat) (x : Z) : Forall (fun b => 0 <= b < 256) (MD5.le_bytes n x).
Proof.
  unfold MD5.le_bytes. apply List.Forall_forall. intros b Hb.
  apply in_map_iff in Hb as (i & <- & _). apply Z.mod_pos_bound. lia.
Qed.

Lemma digest_range (msg : list Z) : Forall (fun b => 0 <= b < 256) (MD5.digest msg).
Proof. unfold MD5.digest. cbv zeta. repeat apply Forall_app_2; apply le_bytes_range. Qed.

Lemma hex_digit_inj (d d' : Z) :
  0 <= d < 16 -> 0 <= d' < 16 -> MD5.hex_digit d = MD5.hex_digit d' -> d = d'.
Proof.
  intros H H'. unfold MD5.hex_digit.
  assert (Hn : (Z.to_nat d < 16)%nat) by lia. assert (Hn' : (Z.to_nat d' < 16)%nat) by lia.
  intros Heq. cut (Z.to_nat d = Z.to_nat d'); [lia|].
  revert Hn Hn' Heq. generalize (Z.to_nat d) (Z.to_nat d'). intros n n' Hn Hn'.
  do 16 (destruct n as [|n];
         [do 16 (destruct n' as [|n']; [first [reflexivity | discriminate]|]); lia|]).
  lia.
Qed.

Lemma hex_inj (bs bs' : list Z) :
  Forall (fun b => 0 <= b < 256) bs -> Forall (fun b => 0 <= b < 256) bs' ->
  MD5.hex bs = MD5.hex bs' -> bs = bs'.
Proof.
  unfold MD5.hex. intros Hbs Hbs' Heq.
  apply (f_equal list_ascii_of_string) in Heq.
  rewrite !list_ascii_of_string_of_list_ascii in Heq.
  revert bs' Hbs' Heq. induction Hbs as [|b bs Hb _ IH]; intros [|b' bs'] Hbs' Heq;
    [reflexivity | discriminate | discriminate |].
  apply Forall_cons in Hbs' as [Hb' Hbs'].
  cbn [flat_map MD5.hex_byte app] in Heq. injection Heq as Hhi Hlo Heq.
  apply hex_digit_inj in Hhi, Hlo;
    try (apply Z.mod_pos_bound; lia);
    try (split; [apply Z.div_pos; lia | apply Z.div_lt_upper_bound; lia]).
  f_equal; [|now apply IH].
  rewrite (Z.div_mod b 16), (Z.div_mod b' 16) by lia. congruence.
Qed.

(* Two keys are equal exactly when the digests of the serialized bytes are. *)
Lemma makeKey_eq_digest (A B : value) :
  makeKey A = makeKey B <->
  MD5.digest (MD5.bytes_of_string (JSON.stringify A))
  = MD5.digest (MD5.bytes_of_string (JSON.stringify B)).
Proof.
  unfold makeKey, MD5.md5_hex. split.
  - intros Hkey. apply (inj (String.app "vroom:")) in Hkey.
    apply hex_inj in Hkey; [exact Hkey | apply digest_range | apply digest_range].
  - now intros ->.
Qed.


Ltac since_solve :=
  first [apply since_app | apply logged_app]; simpl; rewrite <- ?List.app_assoc; reflexivity.

Lemma lookup_stays_missing (w w' : world) (key : string) :
  redis_db w' = redis_db w -> now w <= now w' ->
  truthy (redis_lookup w key) = false -> truthy (redis_lookup w' key) = false.
Proof.
  unfold redis_lookup. intros -> Hnow.
  destruct (redis_db w !! key) as [[v expiry]|]; [|reflexivity].
  destruct (now w <=? expiry) eqn:Hlive.
  - intros Hv. destruct (now w' <=? expiry); [exact Hv | reflexivity].
  - intros _. apply Z.leb_gt in Hlive.
    assert ((now w' <=? expiry) = false) as -> by (apply Z.leb_gt; lia). reflexivity.
Qed.

(** C1: on a miss that the upstream answers, the handler writes the answer to
    the cache exactly when the status is 200, under the request key and with a
    time to live of 3600 seconds; after another status the store is unchanged,
    and the same request, sent again at any later time, is forwarded again and
    tagged MISS. *)
Theorem C1_write_back_iff_200
  (env : gmap string string) (body : value) (w : world) (r : http_response) :
  redis_get_error w = None ->
  truthy (redis_lookup w (makeKey body)) = false ->
  upstream_post w (VROOM_URL env) body = Responds r ->
  let key := makeKey body in
  let forward := HttpPost (VROOM_URL env) body 60000 in
  let write := RedisSetEx key 3600 (JSON.stringify (data r)) in
  let w1 := snd (handle_post env body w) in
  since w w1 = [RedisGet key; forward] ++ (if status r =? 200 then [write] else []) /\
  (filter is_write (since w w1) = [write] <-> status r = 200) /\
  (status r <> 200 -> filter is_write (since w w1) = []) /\
  (status r = 200 -> redis_set_error w = None ->
     redis_db w1 = <[key := (JSON.stringify (data r), now w + 3600 * 1000)]> (redis_db w)) /\
  (status r <> 200 ->
     redis_db w1 = redis_db w /\
     forall dt, 0 <= dt ->
       let again := handle_post env body (advance dt w1) in
       header "X-Cache" (headers (fst again)) = Some "MISS" /\
       since (advance dt w1) (snd again) = [RedisGet key; forward]).
Proof.
  intros Hget Hmiss Hup. cbv zeta.
  destruct (Z.eq_dec (status r) 200) as [Hst|Hst].
  - assert (Hsince : since w (snd (handle_post env body w)) =
                     [RedisGet (makeKey body); HttpPost (VROOM_URL env) body 60000;
                      RedisSetEx (makeKey body) 3600 (JSON.stringify (data r))]).
    { destruct (redis_set_error w) as [msg|] eqn:Hset.
      - rewrite (run_miss_200_write_fails env body w r msg); auto. since_solve.
      - rewrite (run_miss_200 env body w r); auto. since_solve. }
    rewrite Hsince, Hst.
    split; [reflexivity|]. split; [split; reflexivity|].
    split; [congruence|]. split; [|congruence].
    intros _ Hset. now rewrite (run_miss_200 env body w r).
  - rewrite (run_miss_other env body w r Hget Hmiss Hup Hst).
    assert (Hsince : since w (emit (HttpPost (VROOM_URL env) body 60000)
                                (emit (RedisGet (makeKey body)) w)) =
                     [RedisGet (makeKey body); HttpPost (VROOM_URL env) body 60000])
      by since_solve.
    cbn [snd]. rewrite Hsince. apply Z.eqb_neq in Hst as Hst'. rewrite Hst'.
    split; [reflexivity|]. split; [split; [discriminate | congruence]|].
    split; [reflexivity|]. split; [congruence|].
    intros _. split; [reflexivity|]. intros dt Hdt.
    rewrite (run_miss_other env body _ r); auto.
    + split; [reflexivity | since_solve].
    + apply (lookup_stays_missing w); simpl; auto; lia.
Qed.

Lemma C1_witness :
  let w := healthy (answer 404 (VObj [("error", VStr "no route")])) in
  let key := makeKey example_body in
  let forward := HttpPost "http://vroom:3000" example_body 60000 in
  let w1 := snd (handle_post ∅ example_body w) in
  since w w1 = [RedisGet key; forward] /\
  redis_db w1 = redis_db w /\
  header "X-Cache" (headers (fst (handle_post ∅ example_body (advance 5000 w1)))) = Some "MISS" /\
  since (advance 5000 w1) (snd (handle_post ∅ example_body (advance 5000 w1)))
    = [RedisGet key; forward].
Proof.
  intros w key forward w1.
  destruct (C1_write_back_iff_200 ∅ example_body w
              {| status := 404; statusText := EmptyString;
                 data := VObj [("error", VStr "no route")] |})
    as (Hsince & _ & _ & _ & Hother);
    [reflexivity | vm_compute; reflexivity | reflexivity |].
  destruct Hother as [Hdb Hagain]; [simpl; lia|].
  destruct (Hagain 5000) as [Hmiss Hforward]; [lia|].
  repeat split; assumption.
Defined.

(** C2: makeKey is a function of the serialized bytes of the body alone: two
    bodies with the same bytes get the same key, and two keys are equal exactly
    when the digests of the bytes are, the prefix and the hexadecimal writing
    losing nothing.  Every key is the prefix vroom: followed by the 16 bytes of
    the digest in 32 hexadecimal characters.  The digest is MD5 of the UTF-8
    bytes of JSON.stringify(body): the keys of the empty object (one block), of
    the running example (two blocks) and of a body with a character of two
    bytes are those that node computes. *)
Theorem C2_makeKey_of_serialization (A B : value) :
  let bytes v := MD5.bytes_of_string (JSON.stringify v) in
  (bytes A = bytes B -> makeKey A = makeKey B) /\
  (makeKey A = makeKey B <-> MD5.digest (bytes A) = MD5.digest (bytes B)) /\
  makeKey A = "vroom:" +:+ MD5.hex (MD5.digest (bytes A)) /\
  length (MD5.digest (bytes A)) = 16%nat /\
  String.length (makeKey A) = 38%nat /\
  makeKey (VObj []) = "vroom:99914b932bd37a50b983c5e7c90ae93b" /\
  makeKey example_body = "vroom:c18a5f206295df916367d2b0e839dcc3" /\
  makeKey (VObj [("name", VStr "Zürich")]) = "vroom:fb894a03d5fa24555bafcebcd531244b".
Proof.
  cbv zeta. split; [|split; [|split; [|split; [|split]]]].
  - intros Hbytes. apply makeKey_eq_digest. now rewrite Hbytes.
  - apply makeKey_eq_digest.
  - reflexivity.
  - apply MD5Facts.length_digest.
  - unfold makeKey. rewrite JSONFacts.sapp_length, MD5Facts.length_md5_hex. reflexivity.
  - vm_compute. repeat split; reflexivity.
Qed.

(** C3, as amended: when redis.get rejects, the handler does not forward the
    request: it logs the error and answers 500 with the generic error body,
    without an X-Cache header; nothing is written to the store. *)
Theorem C3_read_failure_is_an_error
  (env : gmap string string) (body : value) (w : world) (msg : string) :
  redis_get_error w = Some msg ->
  let res1 := fst (handle_post env body w) in
  let w1 := snd (handle_post env body w) in
  statusCode res1 = 500 /\ body_sent res1 = Some internal_error /\
  header "X-Cache" (headers res1) = None /\
  since w w1 = [RedisGet (makeKey body)] /\
  logged w w1 = [error_line msg] /\
  redis_db w1 = redis_db w.
Proof.
  intros Hget. cbv zeta. rewrite (run_read_fails env body w msg Hget). cbn [fst snd].
  repeat split; since_solve.
Qed.

Lemma C3_witness :
  let w := scenario ∅ (Some "Connection is closed") None (inr "PONG")
             (answer 200 example_solution) in
  let res1 := fst (handle_post ∅ example_body w) in
  let w1 := snd (handle_post ∅ example_body w) in
  statusCode res1 = 500 /\ body_sent res1 = Some internal_error /\
  header "X-Cache" (headers res1) = None /\
  since w w1 = [RedisGet (makeKey example_body)] /\
  logged w w1 = [error_line "Connection is closed"] /\
  redis_db w1 = redis_db w.
Proof.
  intros w. apply (C3_read_failure_is_an_error ∅ example_body w "Connection is closed").
  reflexivity.
Defined.

(** C3, as stated, fails: with the store unreachable for reads and an upstream
    that would answer 200, the client does not receive the upstream answer
    tagged MISS, and the request is never forwarded. *)
Lemma C3_counterexample :
  let w := scenario ∅ (Some "Connection is closed") None (inr "PONG")
             (answer 200 example_solution) in
  let r := {| status := 200; statusText := EmptyString; data := example_solution |} in
  redis_get_error w = Some "Connection is closed" /\
  upstream_post w (VROOM_URL ∅) example_body = Responds r /\
  ~ passthrough (fst (handle_post ∅ example_body w)) r /\
  filter is_forward (since w (snd (handle_post ∅ example_body w))) = [].
Proof.
  cbv zeta. split; [reflexivity|]. split; [reflexivity|]. split.
  - intros (Hst & _). vm_compute in Hst. discriminate.
  - vm_compute. reflexivity.
Qed.

(** C4, as amended: when the upstream answered 200 and redis.setEx then
    rejects, the failure is logged, and the client receives 500 with the generic
    error body instead of the upstream answer; the store is unchanged. *)
Theorem C4_write_failure_is_an_error
  (env : gmap string string) (body : value) (w : world) (r : http_response) (msg : string) :
  redis_get_error w = None ->
  truthy (redis_lookup w (makeKey body)) = false ->
  upstream_post w (VROOM_URL env) body = Responds r ->
  status r = 200 ->
  redis_set_error w = Some msg ->
  let res1 := fst (handle_post env body w) in
  let w1 := snd (handle_post env body w) in
  statusCode res1 = 500 /\ body_sent res1 = Some internal_error /\
  header "X-Cache" (headers res1) = None /\
  logged w w1 = [error_line msg] /\
  since w w1 = [RedisGet (makeKey body); HttpPost (VROOM_URL env) body 60000;
                RedisSetEx (makeKey body) 3600 (JSON.stringify (data r))] /\
  redis_db w1 = redis_db w.
Proof.
  intros Hget Hmiss Hup Hst Hset. cbv zeta.
  rewrite (run_miss_200_write_fails env body w r msg Hget Hmiss Hup Hst Hset). cbn [fst snd].
  repeat split; since_solve.
Qed.

Lemma C4_witness :
  let w := scenario ∅ None (Some "Connection is closed") (inr "PONG")
             (answer 200 example_solution) in
  let res1 := fst (handle_post ∅ example_body w) in
  let w1 := snd (handle_post ∅ example_body w) in
  statusCode res1 = 500 /\ body_sent res1 = Some internal_error /\
  header "X-Cache" (headers res1) = None /\
  logged w w1 = [error_line "Connection is closed"] /\
  since w w1 = [RedisGet (makeKey example_body);
                HttpPost (VROOM_URL ∅) example_body 60000;
                RedisSetEx (makeKey example_body) 3600 (JSON.stringify example_solution)] /\
  redis_db w1 = redis_db w.
Proof.
  intros w.
  apply (C4_write_failure_is_an_error ∅ example_body w
           {| status := 200; statusText := EmptyString; data := example_solution |}
           "Connection is closed");
    solve [reflexivity | vm_compute; reflexivity].
Defined.

(** C4, as stated, fails: the upstream answered 200 with a body, the write to
    the store failed, and the client received neither that status with that
    body nor the MISS tag. *)
Lemma C4_counterexample :
  let w := scenario ∅ None (Some "Connection is closed") (inr "PONG")
             (answer 200 example_solution) in
  let res1 := fst (handle_post ∅ example_body w) in
  redis_get_error w = None /\
  truthy (redis_lookup w (makeKey example_body)) = false /\
  upstream_post w (VROOM_URL ∅) example_body = answer 200 example_solution /\
  redis_set_error w = Some "Connection is closed" /\
  statusCode res1 <> 200 /\ body_sent res1 <> Some example_solution.
Proof.
  cbv zeta. repeat split; try reflexivity; vm_compute; discriminate.
Qed.

(** C5, as amended: on a miss that the upstream answers with some status and
    body, the client receives exactly that status and that body, tagged MISS,
    provided that the write to the store, which is attempted for status 200
    only, does not fail. *)
Theorem C5_passthrough
  (env : gmap string string) (body : value) (w : world) (r : http_response) :
  redis_get_error w = None ->
  truthy (redis_lookup w (makeKey body)) = false ->
  upstream_post w (VROOM_URL env) body = Responds r ->
  status r <> 200 \/ redis_set_error w = None ->
  let res1 := fst (handle_post env body w) in
  passthrough res1 r /\ headers res1 = [("X-Cache", "MISS")].
Proof.
  intros Hget Hmiss Hup Hwrite. cbv zeta. unfold passthrough.
  destruct (Z.eq_dec (status r) 200) as [Hst|Hst].
  - destruct Hwrite as [Hne|Hset]; [contradiction|].
    rewrite (run_miss_200 env body w r Hget Hmiss Hup Hst Hset). cbn [fst].
    rewrite Hst. repeat split; reflexivity.
  - rewrite (run_miss_other env body w r Hget Hmiss Hup Hst). cbn [fst].
    repeat split; reflexivity.
Qed.

Lemma C5_witness :
  let r := {| status := 422; statusText := EmptyString;
              data := VObj [("code", VNum "2"); ("error", VStr "Invalid input")] |} in
  let res1 := fst (handle_post ∅ example_body (healthy (Responds r))) in
  passthrough res1 r /\ headers res1 = [("X-Cache", "MISS")].
Proof.
  intros r.
  apply (C5_passthrough ∅ example_body (healthy (Responds r)) r);
    solve [reflexivity | vm_compute; reflexivity | left; discriminate].
Defined.

(** C5, as stated, fails: on a miss answered with 200 while the store rejects
    the write, the client does not receive the upstream status and body. *)
Lemma C5_counterexample :
  let r := {| status := 200; statusText := EmptyString; data := example_solution |} in
  let w := scenario ∅ None (Some "Connection is closed") (inr "PONG") (Responds r) in
  redis_get_error w = None /\
  truthy (redis_lookup w (makeKey example_body)) = false /\
  upstream_post w (VROOM_URL ∅) example_body = Responds r /\
  ~ passthrough (fst (handle_post ∅ example_body w)) r.
Proof.
  cbv zeta. repeat split; try reflexivity.
  intros (Hst & _). vm_compute in Hst. discriminate.
Qed.

(** C6: on a miss that the upstream never answers (axios rejects with an error
    that has a request and no response), the client receives 502 with the
    payload error and code, the code being non-empty (the error's own code, or
    EAXIOS); no write to the store is attempted. *)
Theorem C6_transport_failure_is_502
  (env : gmap string string) (body : value) (w : world)
  (code : option string) (msg : string) (cfg : option request_config) :
  redis_get_error w = None ->
  truthy (redis_lookup w (makeKey body)) = false ->
  upstream_post w (VROOM_URL env) body = Fails (AxiosError code msg cfg true None) ->
  let res1 := fst (handle_post env body w) in
  let w1 := snd (handle_post env body w) in
  statusCode res1 = 502 /\
  (exists c, body_sent res1 = Some (VObj [("error", VStr "Bad gateway to VROOM");
                                          ("code", VStr c)])
             /\ c <> EmptyString /\ c = or_else code "EAXIOS") /\
  since w w1 = [RedisGet (makeKey body); HttpPost (VROOM_URL env) body 60000] /\
  filter is_write (since w w1) = [] /\
  redis_db w1 = redis_db w.
Proof.
  intros Hget Hmiss Hup. cbv zeta.
  rewrite (run_miss_no_response env body w code msg cfg Hget Hmiss Hup). cbn [fst snd].
  assert (Hsince : since w (with_log [LStr "Request error:"; LStr (or_else code msg); LConfig cfg]
                             (emit (HttpPost (VROOM_URL env) body 60000)
                                (emit (RedisGet (makeKey body)) w))) =
                   [RedisGet (makeKey body); HttpPost (VROOM_URL env) body 60000])
    by since_solve.
  rewrite Hsince.
  split; [reflexivity|]. split; [|repeat split; reflexivity].
  exists (or_else code "EAXIOS"). split; [reflexivity|]. split; [|reflexivity].
  destruct code as [[|c s]|]; discriminate.
Qed.

Lemma C6_witness :
  let w := healthy (Fails connection_refused) in
  let res1 := fst (handle_post ∅ example_body w) in
  let w1 := snd (handle_post ∅ example_body w) in
  statusCode res1 = 502 /\
  (exists c, body_sent res1 = Some (VObj [("error", VStr "Bad gateway to VROOM");
                                          ("code", VStr c)])
             /\ c <> EmptyString /\ c = or_else (Some "ECONNREFUSED") "EAXIOS") /\
  since w w1 = [RedisGet (makeKey example_body); HttpPost (VROOM_URL ∅) example_body 60000] /\
  filter is_write (since w w1) = [] /\
  redis_db w1 = redis_db w.
Proof.
  intros w.
  apply (C6_transport_failure_is_502 ∅ example_body w (Some "ECONNREFUSED")
           "connect ECONNREFUSED" (Some {| url := "http://vroom:3000"; method := "post" |}));
    solve [reflexivity | vm_compute; reflexivity].
Defined.

Lemma lookup_fresh (w w2 : world) (key val : string) (ttl : Z) :
  redis_db w2 = <[key := (val, now w + ttl)]> (redis_db w) ->
  now w2 < now w + ttl ->
  redis_lookup w2 key = Some val.
Proof.
  intros Hdb Hnow. unfold redis_lookup. rewrite Hdb, lookup_insert_eq.
  assert ((now w2 <=? now w + ttl) = true) as -> by (apply Z.leb_le; lia). reflexivity.
Qed.

(** C7: after a miss answered with 200 whose body was written to the store,
    the same request, arriving less than 3600 seconds later with the store
    untouched and readable, is answered from the store alone: status 200, tagged
    HIT, with the body that the upstream had sent (the stored text parses back
    to it). *)
Theorem C7_cached_answer_is_served
  (env : gmap string string) (body : value) (w w2 : world) (r : http_response) :
  redis_get_error w = None ->
  truthy (redis_lookup w (makeKey body)) = false ->
  upstream_post w (VROOM_URL env) body = Responds r ->
  status r = 200 ->
  JSON.wf (data r) = true ->
  redis_set_error w = None ->
  redis_db w2 = redis_db (snd (handle_post env body w)) ->
  now w <= now w2 < now w + 3600 * 1000 ->
  redis_get_error w2 = None ->
  let res2 := fst (handle_post env body w2) in
  let w3 := snd (handle_post env body w2) in
  redis_lookup w2 (makeKey body) = Some (JSON.stringify (data r)) /\
  statusCode res2 = 200 /\
  header "X-Cache" (headers res2) = Some "HIT" /\
  body_sent res2 = Some (data r) /\
  since w2 w3 = [RedisGet (makeKey body)] /\
  redis_db w3 = redis_db w2.
Proof.
  intros Hget Hmiss Hup Hst Hwf Hset Hdb Hnow Hget2. cbv zeta.
  rewrite (run_miss_200 env body w r Hget Hmiss Hup Hst Hset) in Hdb. cbn [snd] in Hdb.
  simpl in Hdb.
  assert (Hlook : redis_lookup w2 (makeKey body) = Some (JSON.stringify (data r))).
  { apply (lookup_fresh w w2 _ _ (3600 * 1000)); [exact Hdb | lia]. }
  destruct (JSONFacts.stringify_nonempty (data r) Hwf) as (c & text & Htext).
  rewrite Htext in Hlook.
  rewrite (run_hit env body w2 c text (data r) Hget2 Hlook).
  - cbn [fst snd]. rewrite Htext.
    split; [exact Hlook|]. repeat split; try reflexivity. since_solve.
  - rewrite <- Htext. now apply JSONFacts.parse_stringify.
Qed.

Lemma C7_witness :
  let w := healthy (answer 200 example_solution) in
  let w2 := advance 1000 (snd (handle_post ∅ example_body w)) in
  let res2 := fst (handle_post ∅ example_body w2) in
  let w3 := snd (handle_post ∅ example_body w2) in
  redis_lookup w2 (makeKey example_body) = Some (JSON.stringify example_solution) /\
  statusCode res2 = 200 /\
  header "X-Cache" (headers res2) = Some "HIT" /\
  body_sent res2 = Some example_solution /\
  since w2 w3 = [RedisGet (makeKey example_body)] /\
  redis_db w3 = redis_db w2.
Proof.
  intros w w2.
  apply (C7_cached_answer_is_served ∅ example_body w w2
           {| status := 200; statusText := EmptyString; data := example_solution |});
    solve [reflexivity | vm_compute; reflexivity | vm_compute; split; [discriminate | reflexivity]].
Defined.

(** C10: on a hit, that is when the lookup returns a stored value and the
    handler takes the branch if (cached), there is no upstream call and no
    write: the one redis.get is the only call, the store is unchanged, and the
    response is tagged HIT.  Every text that the proxy itself stores, the
    serialization of an upstream answer, is such a value. *)
Theorem C10_hit_reads_only
  (env : gmap string string) (body : value) (w : world) (text : string) :
  redis_get_error w = None ->
  redis_lookup w (makeKey body) = Some text ->
  truthy (Some text) = true ->
  let res1 := fst (handle_post env body w) in
  let w1 := snd (handle_post env body w) in
  since w w1 = [RedisGet (makeKey body)] /\
  filter is_forward (since w w1) = [] /\
  filter is_write (since w w1) = [] /\
  redis_db w1 = redis_db w /\
  header "X-Cache" (headers res1) = Some "HIT" /\
  (forall d, JSON.wf d = true -> truthy (Some (JSON.stringify d)) = true).
Proof.
  intros Hget Hlook Htext. cbv zeta.
  destruct text as [|c text]; [discriminate|]. clear Htext.
  assert (Hstored : forall d, JSON.wf d = true -> truthy (Some (JSON.stringify d)) = true).
  { intros d Hd. destruct (JSONFacts.stringify_nonempty d Hd) as (c' & s' & ->). reflexivity. }
  destruct (JSON.parse (String c text)) as [v|] eqn:Hparse.
  - rewrite (run_hit env body w c text v Hget Hlook Hparse). cbn [fst snd].
    assert (Hsince : since w (emit (RedisGet (makeKey body)) w) = [RedisGet (makeKey body)])
      by since_solve.
    rewrite Hsince. do 5 (split; [reflexivity|]). exact Hstored.
  - rewrite (run_hit_garbled env body w c text Hget Hlook Hparse). cbn [fst snd].
    assert (Hsince : since w (with_log (error_line "Unexpected token in JSON")
                               (emit (RedisGet (makeKey body)) w)) = [RedisGet (makeKey body)])
      by since_solve.
    rewrite Hsince. do 5 (split; [reflexivity|]). exact Hstored.
Qed.

Lemma C10_witness :
  let key := makeKey example_body in
  let w := scenario {[ key := (JSON.stringify example_solution, 1000000) ]} None None
             (inr "PONG") (Fails connection_refused) in
  let res1 := fst (handle_post ∅ example_body w) in
  let w1 := snd (handle_post ∅ example_body w) in
  since w w1 = [RedisGet key] /\
  filter is_forward (since w w1) = [] /\
  filter is_write (since w w1) = [] /\
  redis_db w1 = redis_db w /\
  header "X-Cache" (headers res1) = Some "HIT" /\
  (forall d, JSON.wf d = true -> truthy (Some (JSON.stringify d)) = true).
Proof.
  intros key w.
  apply (C10_hit_reads_only ∅ example_body w (JSON.stringify example_solution));
    vm_compute; reflexivity.
Defined.

(** ** Health probes *)

Lemma or_else_nonempty (a : option string) (b : string) :
  b <> EmptyString -> or_else a b <> EmptyString.
Proof. destruct a as [[|c s]|]; simpl; auto; discriminate. Qed.

Lemma failure_message_nonempty (e : js_error) : failure_message e <> EmptyString.
Proof. unfold failure_message. do 2 apply or_else_nonempty. discriminate. Qed.

Lemma settle_probe (rc : request_config) (r : http_response) :
  let cfg := {| timeout := 5000; validateStatus := fun status => status <? 500 |} in
  (status r < 500 -> settle cfg rc r = Ok r) /\
  (500 <= status r -> exists e, settle cfg rc r = Throw e).
Proof.
  cbv zeta. unfold settle. cbn [validateStatus]. split; intros Hst.
  - apply Z.ltb_lt in Hst. rewrite Hst, orb_true_r. reflexivity.
  - assert ((status r =? 0) = false) as -> by (apply Z.eqb_neq; lia).
    assert ((status r <? 500) = false) as -> by (apply Z.ltb_ge; lia).
    simpl. eauto.
Qed.

Lemma run_checkOSRMHealth (baseUrl profile : string) (w : world) :
  exists c,
    checkOSRMHealth baseUrl profile w = (Ok c, emit (HttpGet (osrm_url baseUrl) 5000) w) /\
    verdict (upstream_get w (osrm_url baseUrl)) c /\
    chk_profile c = Some profile /\ chk_url c = baseUrl.
Proof.
  unfold checkOSRMHealth, try_catch, mbind, M_bind, axios_get. cbv zeta.
  fold (osrm_url baseUrl). cbn [timeout].
  destruct (upstream_get w (osrm_url baseUrl)) as [r|e]; cbn [verdict].
  - destruct (Z.lt_ge_cases (status r) 500) as [Hlt|Hge].
    + rewrite (proj1 (settle_probe _ r) Hlt). eexists. split; [reflexivity|]. cbn.
      split; [|split; reflexivity].
      split; [|split]; intros Hst.
      * apply Z.ltb_lt in Hst. rewrite Hst. repeat split.
      * assert ((status r <? 400) = false) as -> by (apply Z.ltb_ge; lia). repeat split.
      * lia.
    + destruct (proj2 (settle_probe {| url := osrm_url baseUrl; method := "get" |} r) Hge)
        as [e He].
      rewrite He. eexists. split; [reflexivity|]. cbn.
      split; [|split; reflexivity].
      split; [|split]; intros Hst; try lia.
      repeat split. apply failure_message_nonempty.
  - eexists. split; [reflexivity|]. cbn. repeat split. apply failure_message_nonempty.
Qed.

Lemma run_checkVroomHealth (baseUrl profile : string) (w : world) :
  exists c,
    checkVroomHealth baseUrl profile w
      = (Ok c, emit (HttpPost baseUrl (testRequest profile) 5000) w) /\
    verdict (upstream_post w baseUrl (testRequest profile)) c /\
    chk_profile c = Some profile /\ chk_url c = baseUrl.
Proof.
  unfold checkVroomHealth, try_catch, mbind, M_bind, axios_post. cbn [timeout].
  destruct (upstream_post w baseUrl (testRequest profile)) as [r|e]; cbn [verdict].
  - destruct (Z.lt_ge_cases (status r) 500) as [Hlt|Hge].
    + rewrite (proj1 (settle_probe _ r) Hlt). eexists. split; [reflexivity|]. cbn.
      split; [|split; reflexivity].
      split; [|split]; intros Hst.
      * apply Z.ltb_lt in Hst. rewrite Hst. repeat split.
      * assert ((status r <? 400) = false) as -> by (apply Z.ltb_ge; lia). repeat split.
      * lia.
    + destruct (proj2 (settle_probe {| url := baseUrl; method := "post" |} r) Hge)
        as [e He].
      rewrite He. eexists. split; [reflexivity|]. cbn.
      split; [|split; reflexivity].
      split; [|split]; intros Hst; try lia.
      repeat split. apply failure_message_nonempty.
  - eexists. split; [reflexivity|]. cbn. repeat split. apply failure_message_nonempty.
Qed.

Lemma run_checkRedisHealth (env : gmap string string) (w : world) :
  exists c,
    checkRedisHealth env w = (Ok c, emit RedisPing w) /\
    (chk_ok c = true <-> redis_ping_reply w = inr "PONG").
Proof.
  unfold checkRedisHealth, try_catch, mbind, M_bind, redis_ping.
  destruct (redis_ping_reply w) as [msg|pong].
  - eexists. split; [reflexivity|]. cbn. split; discriminate.
  - eexists. split; [reflexivity|]. cbn. split.
    + intros H. apply String.eqb_eq in H. now subst.
    + intros H. injection H as ->. reflexivity.
Qed.

(** C8, as amended: a probe of a routing backend or of an optimizer profile
    always returns a result.  A response with status below 400 gives ok = true
    with that status; a response with status from 400 to 499 gives ok = false
    with that status; a response with status 500 or more, which axios rejects
    under validateStatus, gives status 0 and ok = false with a failure message,
    as does a request that got no response.  The health endpoint itself always
    returns its report. *)
Theorem C8_probe_verdicts (env : gmap string string) (baseUrl profile : string) (w : world) :
  (exists c w', checkOSRMHealth baseUrl profile w = (Ok c, w') /\
                verdict (upstream_get w (osrm_url baseUrl)) c) /\
  (exists c w', checkVroomHealth baseUrl profile w = (Ok c, w') /\
                verdict (upstream_post w baseUrl (testRequest profile)) c) /\
  (exists rep w', health env w = (Ok rep, w')).
Proof.
  split; [|split].
  - destruct (run_checkOSRMHealth baseUrl profile w) as (c & Hrun & Hv & _). eauto.
  - destruct (run_checkVroomHealth baseUrl profile w) as (c & Hrun & Hv & _). eauto.
  - unfold health, mbind, M_bind.
    destruct (run_checkOSRMHealth "http://osrm-motorbike:5000" "motorbike" w)
      as (o1 & -> & _).
    destruct (run_checkOSRMHealth "http://osrm-small-truck:5000" "smalltruck"
                (emit (HttpGet (osrm_url "http://osrm-motorbike:5000") 5000) w))
      as (o2 & -> & _).
    match goal with |- context [checkVroomHealth ?b ?p ?w0] =>
      destruct (run_checkVroomHealth b p w0) as (v1 & -> & _) end.
    match goal with |- context [checkVroomHealth ?b ?p ?w0] =>
      destruct (run_checkVroomHealth b p w0) as (v2 & -> & _) end.
    match goal with |- context [checkRedisHealth ?e ?w0] =>
      destruct (run_checkRedisHealth e w0) as (rc & -> & _) end.
    eauto.
Qed.

(** C8, as stated, fails for a 5xx response: the OSRM probe of a backend that
    answers 503 reports status 0, not 503. *)
Lemma C8_counterexample :
  let w := healthy (answer 503 VNull) in
  upstream_get w (osrm_url "http://osrm-motorbike:5000") = answer 503 VNull /\
  exists c w',
    checkOSRMHealth "http://osrm-motorbike:5000" "motorbike" w = (Ok c, w') /\
    chk_ok c = false /\ chk_status c = 0 /\ chk_status c <> 503 /\
    chk_message c = "ERR_BAD_RESPONSE".
Proof.
  cbv zeta. split; [reflexivity|].
  eexists _, _. split; [vm_compute; reflexivity|].
  repeat split. discriminate.
Qed.

(* A probe reads the network and Redis, not the trace of the calls. *)
Lemma probes_ignore_trace (env : gmap string string) (baseUrl profile : string) (w w0 : world) :
  upstream_get w0 = upstream_get w -> upstream_post w0 = upstream_post w ->
  redis_ping_reply w0 = redis_ping_reply w ->
  fst (checkOSRMHealth baseUrl profile w0) = fst (checkOSRMHealth baseUrl profile w) /\
  fst (checkVroomHealth baseUrl profile w0) = fst (checkVroomHealth baseUrl profile w) /\
  fst (checkRedisHealth env w0) = fst (checkRedisHealth env w).
Proof.
  intros Hg Hp Hr.
  unfold checkOSRMHealth, checkVroomHealth, checkRedisHealth, try_catch, mbind, M_bind,
    axios_get, axios_post, redis_ping. cbv zeta.
  rewrite Hg, Hp, Hr. split; [|split].
  - destruct (upstream_get w _) as [r|e]; [destruct (settle _ _ r)|]; reflexivity.
  - destruct (upstream_post w _ _) as [r|e]; [destruct (settle _ _ r)|]; reflexivity.
  - destruct (redis_ping_reply w); reflexivity.
Qed.

(** C9: the health endpoint always returns a report; its entries are the
    results of the five probes (the two OSRM probes, the two VROOM probes, the
    Redis probe), each as the probe returns it; the ok field is true exactly
    when every one of the five has ok = true, and false exactly when one of
    them has ok = false; and the Redis probe has ok = true exactly when
    redis.ping resolved to PONG. *)
Theorem C9_health_ok_is_conjunction (env : gmap string string) (w : world) :
  exists rep w' o1 o2 v1 v2 rc,
    health env w = (Ok rep, w') /\
    fst (checkOSRMHealth "http://osrm-motorbike:5000" "motorbike" w) = Ok o1 /\
    fst (checkOSRMHealth "http://osrm-small-truck:5000" "smalltruck" w) = Ok o2 /\
    fst (checkVroomHealth (VROOM_URL env) "motorbike" w) = Ok v1 /\
    fst (checkVroomHealth (VROOM_URL env) "smalltruck" w) = Ok v2 /\
    fst (checkRedisHealth env w) = Ok rc /\
    services_of rep
      = {| vroom_profiles := [v1; v2]; redis := rc; osrm_profiles := [o1; o2] |} /\
    (ok rep = true <->
     chk_ok o1 = true /\ chk_ok o2 = true /\ chk_ok v1 = true /\ chk_ok v2 = true
     /\ chk_ok rc = true) /\
    (ok rep = false <-> Exists (fun c => chk_ok c = false) [o1; o2; v1; v2; rc]) /\
    (chk_ok rc = true <-> redis_ping_reply w = inr "PONG").
Proof.
  unfold health, mbind, M_bind.
  destruct (run_checkOSRMHealth "http://osrm-motorbike:5000" "motorbike" w)
    as (o1 & Ho1 & _).
  rewrite Ho1.
  match goal with |- context [checkOSRMHealth ?b ?p ?w0] =>
    destruct (run_checkOSRMHealth b p w0) as (o2 & Ho2 & _);
    destruct (probes_ignore_trace env b p w w0) as (Eo2 & _ & _); try reflexivity end.
  rewrite Ho2.
  match goal with |- context [checkVroomHealth ?b ?p ?w0] =>
    destruct (run_checkVroomHealth b p w0) as (v1 & Hv1 & _);
    destruct (probes_ignore_trace env b p w w0) as (_ & Ev1 & _); try reflexivity end.
  rewrite Hv1.
  match goal with |- context [checkVroomHealth ?b ?p ?w0] =>
    destruct (run_checkVroomHealth b p w0) as (v2 & Hv2 & _);
    destruct (probes_ignore_trace env b p w w0) as (_ & Ev2 & _); try reflexivity end.
  rewrite Hv2.
  match goal with |- context [checkRedisHealth ?e ?w0] =>
    destruct (run_checkRedisHealth e w0) as (rc & Hrc & Hpong);
    destruct (probes_ignore_trace env EmptyString EmptyString w w0) as (_ & _ & Erc);
    try reflexivity end.
  rewrite Hrc.
  rewrite Ho2 in Eo2. rewrite Hv1 in Ev1. rewrite Hv2 in Ev2. rewrite Hrc in Erc.
  exists {| ok := forallb chk_ok ([o1; o2] ++ [v1; v2] ++ [rc]);
            services_of := {| vroom_profiles := [v1; v2]; redis := rc;
                              osrm_profiles := [o1; o2] |} |}.
  eexists. exists o1, o2, v1, v2, rc.
  split; [reflexivity|]. split; [reflexivity|].
  do 4 (split; [symmetry; assumption|]).
  split; [reflexivity|]. cbn [ok app forallb]. split; [|split; [|exact Hpong]].
  - rewrite !andb_true_iff. tauto.
  - rewrite !List.Exists_cons, List.Exists_nil.
    destruct (chk_ok o1), (chk_ok o2), (chk_ok v1), (chk_ok v2), (chk_ok rc); cbn;
      intuition discriminate.
Qed.

(** ** Further properties of the handlers *)

(* What the catch block does: one console line, a status and a body; the
   headers and the rest of the world are left as they are. *)
Lemma post_root_catch_effect (err : js_error) :
  exists line st v,
    (forall h, post_root_catch err h =
       (Ok tt, {| world_of := with_log line (world_of h);
                  res := {| statusCode := st; headers := headers (res h);
                            body_sent := Some v |} |}))
    /\ (st = 500 \/ st = 502 \/ exists r, err_response err = Some r /\ st = status r).
Proof.
  unfold post_root_catch, mbind, M_bind, lift, console_error, res_status, res_json.
  destruct err as [code msg cfg req [r|]|msg]; cbn.
  - eexists _, _, _. split; [reflexivity|]. right. right. eauto.
  - destruct req; cbn; eexists _, _, _; (split; [reflexivity|]); auto.
  - eexists _, _, _. split; [reflexivity|]. auto.
Qed.

Section FurtherFacts.

#[local] Opaque makeKey.

Lemma truthy_true cached : truthy cached = true -> exists c text, cached = Some (String c text).
Proof. destruct cached as [[|c s]|]; try discriminate. eauto. Qed.

Lemma run_miss_rejected (env : gmap string string) body w e :
  redis_get_error w = None ->
  truthy (redis_lookup w (makeKey body)) = false ->
  upstream_post w (VROOM_URL env) body = Fails e ->
  handle_post env body w =
    (let (_, h) := post_root_catch e
                     {| world_of := emit (HttpPost (VROOM_URL env) body 60000)
                                      (emit (RedisGet (makeKey body)) w);
                        res := fresh_response |} in
     (res h, world_of h)).
Proof.
  intros Hget Hmiss Hup.
  unfold handle_post, post_root, try_catch, mbind, M_bind, lift, redis_get, axios_post.
  simpl. rewrite Hget.
  destruct (truthy_false _ Hmiss) as [-> | ->]; simpl; rewrite Hup; reflexivity.
Qed.

Lemma handle_post_path (env : gmap string string) body w :
  post_path env body w (fst (handle_post env body w)) (snd (handle_post env body w)).
Proof.
  destruct (redis_get_error w) as [msg|] eqn:Hget.
  { rewrite (run_read_fails env body w msg Hget). cbn [fst snd]. now apply (path_read_error env body w msg). }
  destruct (truthy (redis_lookup w (makeKey body))) eqn:Htr.
  { destruct (truthy_true _ Htr) as (c & text & Hlook).
    destruct (JSON.parse (String c text)) as [v|] eqn:Hparse.
    - rewrite (run_hit env body w c text v Hget Hlook Hparse). cbn [fst snd].
      now apply (path_hit env body w c text v).
    - rewrite (run_hit_garbled env body w c text Hget Hlook Hparse). cbn [fst snd].
      now apply (path_hit_garbled env body w c text). }
  destruct (upstream_post w (VROOM_URL env) body) as [r|e] eqn:Hup.
  - destruct (Z.eq_dec (status r) 200) as [Hst|Hst].
    + destruct (redis_set_error w) as [msg|] eqn:Hset.
      * rewrite (run_miss_200_write_fails env body w r msg Hget Htr Hup Hst Hset).
        cbn [fst snd]. now apply (path_write_error env body w r msg).
      * rewrite (run_miss_200 env body w r Hget Htr Hup Hst Hset). cbn [fst snd].
        now apply (path_miss_cached env body w r).
    + rewrite (run_miss_other env body w r Hget Htr Hup Hst). cbn [fst snd].
      now apply (path_miss env body w r).
  - rewrite (run_miss_rejected env body w e Hget Htr Hup).
    destruct (post_root_catch_effect e) as (line & st & v & Hcatch & Hst).
    rewrite Hcatch.
    cbn [fst snd res world_of headers fresh_response]. now apply (path_rejected env body w e).
Qed.
Lemma since_emit1 w a : since w (emit a w) = [a].
Proof. since_solve. Qed.
Lemma since_emit2 w a b : since w (emit b (emit a w)) = [a; b].
Proof. since_solve. Qed.
Lemma since_emit3 w a b c : since w (emit c (emit b (emit a w))) = [a; b; c].
Proof. since_solve. Qed.
Lemma since_with_log w w' line : since w (with_log line w') = since w w'.
Proof. reflexivity. Qed.
Lemma since_with_db w w' db : since w (with_db db w') = since w w'.
Proof. reflexivity. Qed.
Lemma logged_same w w' : console w' = console w -> logged w w' = [].
Proof. intros H. unfold logged. rewrite H. apply drop_all. Qed.
Lemma logged_with_log w w' line :
  console w' = console w -> logged w (with_log line w') = [line].
Proof. intros H. apply logged_app. simpl. now rewrite H. Qed.

Ltac path_simpl :=
  cbn [fst snd statusCode headers body_sent header];
  rewrite ?since_with_log, ?since_with_db, ?since_emit1, ?since_emit2, ?since_emit3.

(** X1: a POST whose body was parsed is always answered: the handler does
    not reject, res.json is called, and the X-Cache header is absent, HIT or
    MISS.  A POST whose req.body is undefined is not: makeKey throws before the
    try block, and the handler rejects without a call, a log line or a
    response. *)
Theorem X1_post_responds_unless_body_undefined
  (env : gmap string string) (req_body : option value) (w : world) :
  let h0 := {| world_of := w; res := fresh_response |} in
  match req_body with
  | Some body =>
      exists h, post_request env (Some body) h0 = (Ok tt, h) /\
                res h = fst (handle_post env body w) /\
                (exists v, body_sent (res h) = Some v) /\
                (header "X-Cache" (headers (res h)) = None \/
                 header "X-Cache" (headers (res h)) = Some "HIT" \/
                 header "X-Cache" (headers (res h)) = Some "MISS")
  | None =>
      exists e, post_request env None h0 = (Throw e, h0) /\ isAxiosError e = false
  end.
Proof.
  cbv zeta. destruct req_body as [body|]; [|eexists; split; reflexivity].
  destruct (post_root_returns env body {| world_of := w; res := fresh_response |}) as [h Hh].
  exists h. split; [exact Hh|].
  assert (Hres : res h = fst (handle_post env body w)).
  { unfold handle_post. rewrite Hh. reflexivity. }
  split; [exact Hres|]. rewrite Hres.
  destruct (handle_post_path env body w); cbn; eauto.
Qed.

(** X2: the calls of one request are the cache read, then at most one forward
    (there is no retry), then at most one write; a write is made only after the
    upstream answered 200, under the request key, for 3600 seconds, with the
    serialized answer. *)
Theorem X2_post_call_discipline (env : gmap string string) (body : value) (w : world) :
  let key := makeKey body in
  let forward := HttpPost (VROOM_URL env) body 60000 in
  let calls := since w (snd (handle_post env body w)) in
  calls = [RedisGet key] \/
  calls = [RedisGet key; forward] \/
  exists r, upstream_post w (VROOM_URL env) body = Responds r /\ status r = 200 /\
            calls = [RedisGet key; forward; RedisSetEx key 3600 (JSON.stringify (data r))].
Proof.
  cbv zeta. destruct (handle_post_path env body w); path_simpl; eauto 6.
Qed.

(** X3: a request leaves the store as it was or sets the entry under its own
    key (the serialized upstream answer, expiring 3600 seconds later); the
    lookup under every other key, and the clock, are unchanged. *)
Theorem X3_post_touches_only_its_key (env : gmap string string) (body : value) (w : world) :
  let w1 := snd (handle_post env body w) in
  (redis_db w1 = redis_db w \/
   exists r, upstream_post w (VROOM_URL env) body = Responds r /\
             redis_db w1 = <[makeKey body := (JSON.stringify (data r), now w + 3600 * 1000)]>
                             (redis_db w)) /\
  (forall k, k <> makeKey body -> redis_lookup w1 k = redis_lookup w k) /\
  now w1 = now w.
Proof.
  cbv zeta.
  destruct (handle_post_path env body w); cbn [snd];
    (split; [|split; [|reflexivity]]);
    try (left; reflexivity); try (intros k Hk; reflexivity).
  - right. eauto.
  - intros k Hk. unfold redis_lookup. cbn. now rewrite lookup_insert_ne.
Qed.

(** X4: the tag tells what happened.  MISS: the upstream answered and the
    client has that status and body, and nothing was logged.  HIT: the cache
    held a non-empty value and the read was the only call.  No tag: an error
    was logged. *)
Theorem X4_cache_tag_is_truthful (env : gmap string string) (body : value) (w : world) :
  let res1 := fst (handle_post env body w) in
  let w1 := snd (handle_post env body w) in
  (header "X-Cache" (headers res1) = Some "MISS" ->
     exists r, upstream_post w (VROOM_URL env) body = Responds r /\ passthrough res1 r
               /\ logged w w1 = []) /\
  (header "X-Cache" (headers res1) = Some "HIT" ->
     truthy (redis_lookup w (makeKey body)) = true /\ since w w1 = [RedisGet (makeKey body)]) /\
  (header "X-Cache" (headers res1) = None ->
     exists line, logged w w1 = [line]).
Proof.
  cbv zeta. unfold passthrough.
  destruct (handle_post_path env body w) as [msg Hg|c text v Hg Hl Hp|c text Hg Hl Hp
    |r Hg Hm Hu Hs|r Hg Hm Hu Hs Hw|r msg Hg Hm Hu Hs Hw|e line st v Hg Hm Hu Hst];
    path_simpl; cbn; (split; [|split]); intros H; try discriminate H.
  - exists (error_line msg). apply logged_with_log. reflexivity.
  - rewrite Hl. split; reflexivity.
  - rewrite Hl. split; reflexivity.
  - exists r. repeat split; auto. now apply logged_same.
  - exists r. rewrite Hs. repeat split; auto. now apply logged_same.
  - exists (error_line msg). apply logged_with_log. reflexivity.
  - exists line. apply logged_with_log. reflexivity.
Qed.

(** X5: with validateStatus: () => true axios never rejects on account of a
    status, so the first branch of the catch block, which would relay the
    status of err.response, is never taken: when the failures of the network
    carry no response, no Upstream error line is logged, whatever is logged is
    an Error or a Request error line, and a response without X-Cache tag, or
    one with the generic error body, has status 500 or 502. *)
Theorem X5_upstream_error_branch_is_dead
  (env : gmap string string) (body : value) (w : world) :
  fails_without_response w ->
  let res1 := fst (handle_post env body w) in
  let w1 := snd (handle_post env body w) in
  (forall line, In line (logged w w1) ->
     exists rest, line = LStr "Error:" :: rest \/ line = LStr "Request error:" :: rest) /\
  (forall line, In line (logged w w1) -> hd_error line <> Some (LStr "Upstream error:")) /\
  (header "X-Cache" (headers res1) = None -> statusCode res1 = 500 \/ statusCode res1 = 502).
Proof.
  intros Hnet. cbv zeta.
  assert (Hlines : forall l : list (list log_arg),
            (forall line, In line l ->
               exists rest, line = LStr "Error:" :: rest \/ line = LStr "Request error:" :: rest) ->
            forall line, In line l -> hd_error line <> Some (LStr "Upstream error:")).
  { intros l Hl line Hin. destruct (Hl line Hin) as [rest [-> | ->]]; discriminate. }
  cut ((forall line, In line (logged w (snd (handle_post env body w))) ->
          exists rest, line = LStr "Error:" :: rest \/ line = LStr "Request error:" :: rest) /\
       (header "X-Cache" (headers (fst (handle_post env body w))) = None ->
        statusCode (fst (handle_post env body w)) = 500 \/
        statusCode (fst (handle_post env body w)) = 502)).
  { intros [H1 H2]. split; [exact H1|]. split; [|exact H2]. now apply Hlines. }
  destruct (redis_get_error w) as [msg|] eqn:Hget.
  { rewrite (run_read_fails env body w msg Hget). cbn [fst snd statusCode].
    rewrite logged_with_log by reflexivity.
    split; [|auto]. intros line [<-|[]]. unfold error_line. eauto. }
  destruct (truthy (redis_lookup w (makeKey body))) eqn:Htr.
  { destruct (truthy_true _ Htr) as (c & text & Hlook).
    destruct (JSON.parse (String c text)) as [v|] eqn:Hparse.
    - rewrite (run_hit env body w c text v Hget Hlook Hparse). cbn [fst snd].
      rewrite logged_same by reflexivity. split; [intros line []|discriminate].
    - rewrite (run_hit_garbled env body w c text Hget Hlook Hparse). cbn [fst snd].
      rewrite logged_with_log by reflexivity.
      split; [|discriminate]. intros line [<-|[]]. unfold error_line. eauto. }
  destruct (upstream_post w (VROOM_URL env) body) as [r|e] eqn:Hup.
  - destruct (Z.eq_dec (status r) 200) as [Hst|Hst].
    + destruct (redis_set_error w) as [msg|] eqn:Hset.
      * rewrite (run_miss_200_write_fails env body w r msg Hget Htr Hup Hst Hset).
        cbn [fst snd statusCode]. rewrite logged_with_log by reflexivity.
        split; [|auto]. intros line [<-|[]]. unfold error_line. eauto.
      * rewrite (run_miss_200 env body w r Hget Htr Hup Hst Hset). cbn [fst snd].
        rewrite logged_same by reflexivity. split; [intros line []|discriminate].
    + rewrite (run_miss_other env body w r Hget Htr Hup Hst). cbn [fst snd].
      rewrite logged_same by reflexivity. split; [intros line []|discriminate].
  - rewrite (run_miss_rejected env body w e Hget Htr Hup).
    pose proof (Hnet _ _ _ Hup) as Hresp.
    unfold post_root_catch, mbind, M_bind, lift, console_error, res_status, res_json.
    destruct e as [code msg cfg req resp|msg]; cbn in Hresp; subst; cbn -[logged].
    + destruct req; cbn -[logged]; rewrite logged_with_log by reflexivity;
        (split; [|auto]); intros line [<-|[]]; eauto.
    + rewrite logged_with_log by reflexivity.
      split; [|auto]. intros line [<-|[]]. eauto.
Qed.

Lemma X5_witness :
  let w := healthy (Fails connection_refused) in
  let res1 := fst (handle_post ∅ example_body w) in
  let w1 := snd (handle_post ∅ example_body w) in
  logged w w1 = [[LStr "Request error:"; LStr "ECONNREFUSED";
                  LConfig (Some {| url := "http://vroom:3000"; method := "post" |})]] /\
  (forall line, In line (logged w w1) -> hd_error line <> Some (LStr "Upstream error:")) /\
  (header "X-Cache" (headers res1) = None -> statusCode res1 = 500 \/ statusCode res1 = 502).
Proof.
  intros w. split; [vm_compute; reflexivity|].
  apply (X5_upstream_error_branch_is_dead ∅ example_body w).
  intros to body e H. injection H as <-. reflexivity.
Defined.

(** X6: when the forward rejects with an error that has no response and is not
    an axios error with a request (a setup error, any other exception), the
    client receives 500 with the generic body; nothing is written. *)
Theorem X6_other_failure_is_500
  (env : gmap string string) (body : value) (w : world) (e : js_error) :
  redis_get_error w = None ->
  truthy (redis_lookup w (makeKey body)) = false ->
  upstream_post w (VROOM_URL env) body = Fails e ->
  err_response e = None ->
  isAxiosError e && err_request e = false ->
  let res1 := fst (handle_post env body w) in
  let w1 := snd (handle_post env body w) in
  statusCode res1 = 500 /\ body_sent res1 = Some internal_error /\ headers res1 = [] /\
  since w w1 = [RedisGet (makeKey body); HttpPost (VROOM_URL env) body 60000] /\
  redis_db w1 = redis_db w /\
  exists detail, logged w w1 = [[LStr "Error:"; detail]].
Proof.
  intros Hget Hmiss Hup Hresp Hreq. cbv zeta.
  rewrite (run_miss_rejected env body w _ Hget Hmiss Hup).
  unfold post_root_catch, mbind, M_bind, lift, console_error, res_status, res_json.
  rewrite Hresp, Hreq. destruct (isAxiosError e); cbn -[since logged]; path_simpl;
    (repeat split; eexists; apply logged_with_log; reflexivity).
Qed.

Lemma X6_witness :
  let w := healthy (Fails (Error "Invalid URL")) in
  let res1 := fst (handle_post ∅ example_body w) in
  let w1 := snd (handle_post ∅ example_body w) in
  statusCode res1 = 500 /\ body_sent res1 = Some internal_error /\ headers res1 = [] /\
  since w w1 = [RedisGet (makeKey example_body); HttpPost (VROOM_URL ∅) example_body 60000] /\
  redis_db w1 = redis_db w /\
  exists detail, logged w w1 = [[LStr "Error:"; detail]].
Proof.
  intros w.
  apply (X6_other_failure_is_500 ∅ example_body w (Error "Invalid URL"));
    solve [reflexivity | vm_compute; reflexivity].
Defined.

(** X7: a stored value that is not empty and not JSON makes the request fail:
    500 with the generic body, the X-Cache header already set to HIT, no
    forward; the entry is left in place, so the same request fails in the same
    way for as long as the lookup returns that value. *)
Theorem X7_garbled_entry_fails_while_it_lives
  (env : gmap string string) (body : value) (w : world) (text : string) :
  redis_get_error w = None ->
  redis_lookup w (makeKey body) = Some text ->
  text <> EmptyString ->
  JSON.parse text = None ->
  let res1 := fst (handle_post env body w) in
  let w1 := snd (handle_post env body w) in
  res1 = {| statusCode := 500; headers := [("X-Cache", "HIT")];
            body_sent := Some internal_error |} /\
  since w w1 = [RedisGet (makeKey body)] /\
  redis_db w1 = redis_db w /\
  forall dt, redis_lookup (advance dt w1) (makeKey body) = Some text ->
             fst (handle_post env body (advance dt w1)) = res1.
Proof.
  intros Hget Hlook Htext Hparse. cbv zeta.
  destruct text as [|c text]; [congruence|].
  rewrite (run_hit_garbled env body w c text Hget Hlook Hparse). path_simpl.
  repeat split. intros dt Hdt.
  now rewrite (run_hit_garbled env body _ c text).
Qed.

Lemma X7_witness :
  let w := scenario {[ makeKey example_body := ("not json", 1000000) ]} None None
             (inr "PONG") (answer 200 example_solution) in
  let res1 := fst (handle_post ∅ example_body w) in
  let w1 := snd (handle_post ∅ example_body w) in
  res1 = {| statusCode := 500; headers := [("X-Cache", "HIT")];
            body_sent := Some internal_error |} /\
  since w w1 = [RedisGet (makeKey example_body)] /\
  redis_db w1 = redis_db w /\
  forall dt, redis_lookup (advance dt w1) (makeKey example_body) = Some "not json" ->
             fst (handle_post ∅ example_body (advance dt w1)) = res1.
Proof.
  intros w.
  apply (X7_garbled_entry_fails_while_it_lives ∅ example_body w "not json");
    solve [reflexivity | vm_compute; reflexivity | vm_compute; discriminate].
Defined.

Lemma settle_default (rc : request_config) (r : http_response) :
  let cfg := {| timeout := 0; validateStatus := default_validateStatus |} in
  (200 <= status r < 300 -> settle cfg rc r = Ok r) /\
  (status r <> 0 -> status r < 200 \/ 300 <= status r -> exists e, settle cfg rc r = Throw e).
Proof.
  cbv zeta. unfold settle, default_validateStatus. cbn [validateStatus]. split.
  - intros [H1 H2]. apply Z.leb_le in H1. apply Z.ltb_lt in H2.
    rewrite H1, H2, orb_true_r. reflexivity.
  - intros H0 Hout. apply Z.eqb_neq in H0. rewrite H0.
    assert ((200 <=? status r) && (status r <? 300) = false) as ->.
    { apply andb_false_iff. destruct Hout; [left; apply Z.leb_gt | right; apply Z.ltb_ge]; lia. }
    simpl. eauto.
Qed.

(** X11: in the first version, a miss whose forward fails (no response, or a
    response with a status outside 200..299, which axios rejects by default)
    is answered 500 with the generic body: the upstream status is not passed
    on, there is no 502, and nothing is written. *)
Theorem X11_first_version_answers_500_on_upstream_failure
  (body : value) (w : world) (out : net_outcome) :
  redis_get_error w = None ->
  truthy (redis_lookup w (makeKey body)) = false ->
  upstream_post w "http://vroom:3000" body = out ->
  match out with
  | Fails _ => True
  | Responds r => status r <> 0 /\ (status r < 200 \/ 300 <= status r)
  end ->
  let res1 := fst (handle_post_v0 body w) in
  let w1 := snd (handle_post_v0 body w) in
  res1 = {| statusCode := 500; headers := []; body_sent := Some internal_error |} /\
  since w w1 = [RedisGet (makeKey body); HttpPost "http://vroom:3000" body 0] /\
  redis_db w1 = redis_db w /\
  exists msg, logged w w1 = [[LStr "Error:"; LStr msg]].
Proof.
  intros Hget Hmiss Hup Hout. cbv zeta.
  unfold handle_post_v0, post_root_v0, try_catch, mbind, M_bind, lift, redis_get, axios_post,
    console_error, res_status, res_json.
  simpl. rewrite Hget.
  destruct (truthy_false _ Hmiss) as [-> | ->]; simpl; rewrite Hup;
    (destruct out as [r|e];
     [destruct Hout as [H0 Hr];
      destruct (proj2 (settle_default {| url := "http://vroom:3000"; method := "post" |} r)
                  H0 Hr) as [e ->]|]);
    cbn -[since logged]; path_simpl;
    (repeat split; eexists; apply logged_with_log; reflexivity).
Qed.

Lemma X11_witness :
  let w := healthy (answer 404 (VObj [("error", VStr "no route")])) in
  let res1 := fst (handle_post_v0 example_body w) in
  let w1 := snd (handle_post_v0 example_body w) in
  res1 = {| statusCode := 500; headers := []; body_sent := Some internal_error |} /\
  since w w1 = [RedisGet (makeKey example_body); HttpPost "http://vroom:3000" example_body 0] /\
  redis_db w1 = redis_db w /\
  exists msg, logged w w1 = [[LStr "Error:"; LStr msg]].
Proof.
  intros w.
  apply (X11_first_version_answers_500_on_upstream_failure example_body w
           (answer 404 (VObj [("error", VStr "no route")])));
    try solve [reflexivity | vm_compute; reflexivity].
  split; [discriminate | right; vm_compute; discriminate].
Defined.



Lemma verdict_ok (net : net_outcome) (c : check) :
  verdict net c -> (chk_ok c = true <-> up net).
Proof.
  unfold up. destruct net as [r|e]; cbn [verdict].
  - intros (Hlt & Hmid & Hge). split.
    + intros Hok. exists r. split; [reflexivity|].
      destruct (Z.lt_ge_cases (status r) 400) as [H|H]; [exact H|].
      destruct (Z.lt_ge_cases (status r) 500) as [H5|H5].
      * destruct Hmid as [Hf _]; [lia|]. congruence.
      * destruct (Hge H5) as [Hf _]. congruence.
    + intros (r' & Heq & Hr'). injection Heq as <-. now destruct (Hlt Hr').
  - intros (Hf & _). split; [congruence|]. intros (r & Heq & _). discriminate.
Qed.

Lemma verdict_status (net : net_outcome) (c : check) :
  verdict net c -> chk_status c <> 0 ->
  exists r, net = Responds r /\ chk_status c = status r /\ status r < 500.
Proof.
  destruct net as [r|e]; cbn [verdict].
  - intros (Hlt & Hmid & Hge) Hnz. exists r. split; [reflexivity|].
    destruct (Z.lt_ge_cases (status r) 400) as [H|H].
    + destruct (Hlt H) as (_ & Hs & _). split; [exact Hs | lia].
    + destruct (Z.lt_ge_cases (status r) 500) as [H5|H5].
      * destruct Hmid as (_ & Hs & _); [lia|]. split; [exact Hs | lia].
      * destruct (Hge H5) as (_ & Hs & _). congruence.
  - intros (_ & Hs & _) Hnz. congruence.
Qed.

Lemma checkOSRMHealth_service baseUrl profile w c w' :
  checkOSRMHealth baseUrl profile w = (Ok c, w') -> chk_service c = None.
Proof.
  unfold checkOSRMHealth, try_catch, mbind, M_bind, axios_get. cbv zeta.
  destruct (upstream_get w _) as [r|e]; [destruct (settle _ _ r)|];
    intros H; injection H as <- _; reflexivity.
Qed.

Lemma checkVroomHealth_service baseUrl profile w c w' :
  checkVroomHealth baseUrl profile w = (Ok c, w') -> chk_service c = Some "vroom".
Proof.
  unfold checkVroomHealth, try_catch, mbind, M_bind, axios_post.
  destruct (upstream_post w _ _) as [r|e]; [destruct (settle _ _ r)|];
    intros H; injection H as <- _; reflexivity.
Qed.

(** X13: the health endpoint only reads: it makes five calls (the two OSRM
    routes, the VROOM address of live traffic once per profile, the Redis
    ping), each probe request with a timeout of 5000 ms, and leaves the store,
    the console and the clock unchanged; the report carries the address and
    the service of each probe. *)
Theorem X13_health_is_read_only (env : gmap string string) (w : world) :
  exists rep w',
    health env w = (Ok rep, w') /\
    since w w' = [HttpGet (osrm_url "http://osrm-motorbike:5000") 5000;
                  HttpGet (osrm_url "http://osrm-small-truck:5000") 5000;
                  HttpPost (VROOM_URL env) (testRequest "motorbike") 5000;
                  HttpPost (VROOM_URL env) (testRequest "smalltruck") 5000;
                  RedisPing] /\
    redis_db w' = redis_db w /\ console w' = console w /\ now w' = now w /\
    map chk_url (osrm_profiles (services_of rep))
      = ["http://osrm-motorbike:5000"; "http://osrm-small-truck:5000"] /\
    map chk_url (vroom_profiles (services_of rep)) = [VROOM_URL env; VROOM_URL env] /\
    map chk_service (osrm_profiles (services_of rep)) = [None; None] /\
    map chk_service (vroom_profiles (services_of rep)) = [Some "vroom"; Some "vroom"].
Proof.
  unfold health, mbind, M_bind.
  destruct (run_checkOSRMHealth "http://osrm-motorbike:5000" "motorbike" w)
    as (o1 & Ho1 & _ & _ & Hu1).
  rewrite Ho1. apply checkOSRMHealth_service in Ho1.
  match goal with |- context [checkOSRMHealth ?b ?p ?w0] =>
    destruct (run_checkOSRMHealth b p w0) as (o2 & Ho2 & _ & _ & Hu2) end.
  rewrite Ho2. apply checkOSRMHealth_service in Ho2.
  match goal with |- context [checkVroomHealth ?b ?p ?w0] =>
    destruct (run_checkVroomHealth b p w0) as (v1 & Hv1 & _ & _ & Hu3) end.
  rewrite Hv1. apply checkVroomHealth_service in Hv1.
  match goal with |- context [checkVroomHealth ?b ?p ?w0] =>
    destruct (run_checkVroomHealth b p w0) as (v2 & Hv2 & _ & _ & Hu4) end.
  rewrite Hv2. apply checkVroomHealth_service in Hv2.
  match goal with |- context [checkRedisHealth ?e ?w0] =>
    destruct (run_checkRedisHealth e w0) as (rc & -> & _) end.
  eexists _, _. split; [reflexivity|].
  split; [since_solve|]. cbn -[VROOM_URL].
  rewrite Hu1, Hu2, Hu3, Hu4, Ho1, Ho2, Hv1, Hv2. repeat split.
Qed.

(** X14: the Redis probe reports status 200 whenever ping resolves, with ok
    and OK only for PONG and with ok = false and Unexpected ping response for
    any other reply; when ping rejects it reports status 0, ok = false and the
    error message, or Connection failed when that is empty. *)
Theorem X14_redis_probe_report (env : gmap string string) (w : world) :
  exists c,
    checkRedisHealth env w = (Ok c, emit RedisPing w) /\
    chk_service c = Some "redis" /\ chk_profile c = None /\ chk_url c = REDIS_URL env /\
    match redis_ping_reply w with
    | inr pong =>
        chk_status c = 200 /\
        (pong = "PONG" -> chk_ok c = true /\ chk_message c = "OK") /\
        (pong <> "PONG" -> chk_ok c = false /\ chk_message c = "Unexpected ping response")
    | inl msg =>
        chk_status c = 0 /\ chk_ok c = false /\
        chk_message c = or_else (Some msg) "Connection failed" /\
        chk_message c <> EmptyString
    end.
Proof.
  unfold checkRedisHealth, try_catch, mbind, M_bind, redis_ping.
  destruct (redis_ping_reply w) as [msg|pong].
  - eexists. split; [reflexivity|]. cbn -[or_else]. repeat split.
    apply or_else_nonempty. discriminate.
  - eexists. split; [reflexivity|]. cbn. do 4 (split; [reflexivity|]). split.
    + intros ->. split; reflexivity.
    + intros H. apply String.eqb_neq in H. rewrite H. split; reflexivity.
Qed.

(** X15: a probe reports ok = true exactly when its request got a response
    with a status below 400; and a status other than 0 in its report is always
    the status of a response received, below 500. *)
Theorem X15_probe_ok_means_answer_below_400 (baseUrl profile : string) (w : world) :
  (exists c w',
     checkOSRMHealth baseUrl profile w = (Ok c, w') /\
     (chk_ok c = true <-> up (upstream_get w (osrm_url baseUrl))) /\
     (chk_status c <> 0 ->
      exists r, upstream_get w (osrm_url baseUrl) = Responds r
                /\ chk_status c = status r /\ status r < 500)) /\
  (exists c w',
     checkVroomHealth baseUrl profile w = (Ok c, w') /\
     (chk_ok c = true <-> up (upstream_post w baseUrl (testRequest profile))) /\
     (chk_status c <> 0 ->
      exists r, upstream_post w baseUrl (testRequest profile) = Responds r
                /\ chk_status c = status r /\ status r < 500)).
Proof.
  split.
  - destruct (run_checkOSRMHealth baseUrl profile w) as (c & Hrun & Hv & _).
    exists c. eexists. split; [exact Hrun|].
    split; [now apply verdict_ok | now apply verdict_status].
  - destruct (run_checkVroomHealth baseUrl profile w) as (c & Hrun & Hv & _).
    exists c. eexists. split; [exact Hrun|].
    split; [now apply verdict_ok | now apply verdict_status].
Qed.

(** X16: the health report has ok = true exactly when the two OSRM routes and
    the two VROOM probes are answered with a status below 400 and Redis answers
    PONG. *)
Theorem X16_health_ok_iff_every_service_answers (env : gmap string string) (w : world) :
  exists rep w',
    health env w = (Ok rep, w') /\
    (ok rep = true <->
     up (upstream_get w (osrm_url "http://osrm-motorbike:5000")) /\
     up (upstream_get w (osrm_url "http://osrm-small-truck:5000")) /\
     up (upstream_post w (VROOM_URL env) (testRequest "motorbike")) /\
     up (upstream_post w (VROOM_URL env) (testRequest "smalltruck")) /\
     redis_ping_reply w = inr "PONG").
Proof.
  unfold health, mbind, M_bind.
  destruct (run_checkOSRMHealth "http://osrm-motorbike:5000" "motorbike" w)
    as (o1 & -> & Ho1 & _).
  match goal with |- context [checkOSRMHealth ?b ?p ?w0] =>
    destruct (run_checkOSRMHealth b p w0) as (o2 & -> & Ho2 & _) end.
  match goal with |- context [checkVroomHealth ?b ?p ?w0] =>
    destruct (run_checkVroomHealth b p w0) as (v1 & -> & Hv1 & _) end.
  match goal with |- context [checkVroomHealth ?b ?p ?w0] =>
    destruct (run_checkVroomHealth b p w0) as (v2 & -> & Hv2 & _) end.
  match goal with |- context [checkRedisHealth ?e ?w0] =>
    destruct (run_checkRedisHealth e w0) as (rc & -> & Hrc) end.
  apply verdict_ok in Ho1, Ho2, Hv1, Hv2. cbn -[VROOM_URL] in Ho2, Hv1, Hv2, Hrc.
  eexists _, _. split; [reflexivity|]. cbn -[VROOM_URL].
  rewrite <- Ho1, <- Ho2, <- Hv1, <- Hv2, <- Hrc.
  rewrite !andb_true_iff. tauto.
Qed.

Lemma handle_post_local (env : gmap string string) (body : value) (w w' : world) :
  same_inputs (makeKey body) w w' ->
  fst (handle_post env body w) = fst (handle_post env body w') /\
  since w (snd (handle_post env body w)) = since w' (snd (handle_post env body w')).
Proof.
  intros (Hnow & Hget & Hset & Hlook & Hup).
  destruct (redis_get_error w) as [msg|] eqn:Hg.
  { rewrite (run_read_fails env body w msg Hg), (run_read_fails env body w' msg); [|congruence].
    path_simpl. split; reflexivity. }
  assert (Hg' : redis_get_error w' = None) by congruence.
  destruct (truthy (redis_lookup w (makeKey body))) eqn:Htr.
  { destruct (truthy_true _ Htr) as (c & text & Hl).
    assert (Hl' : redis_lookup w' (makeKey body) = Some (String c text)) by congruence.
    destruct (JSON.parse (String c text)) as [v|] eqn:Hp.
    - rewrite (run_hit env body w c text v Hg Hl Hp), (run_hit env body w' c text v Hg' Hl' Hp).
      path_simpl. split; reflexivity.
    - rewrite (run_hit_garbled env body w c text Hg Hl Hp),
        (run_hit_garbled env body w' c text Hg' Hl' Hp).
      path_simpl. split; reflexivity. }
  assert (Htr' : truthy (redis_lookup w' (makeKey body)) = false) by congruence.
  destruct (upstream_post w (VROOM_URL env) body) as [r|e] eqn:Hu.
  - assert (Hu' : upstream_post w' (VROOM_URL env) body = Responds r) by congruence.
    destruct (Z.eq_dec (status r) 200) as [Hs|Hs].
    + destruct (redis_set_error w) as [msg|] eqn:Hw.
      * rewrite (run_miss_200_write_fails env body w r msg Hg Htr Hu Hs Hw),
          (run_miss_200_write_fails env body w' r msg Hg' Htr' Hu' Hs); [|congruence].
        path_simpl. split; reflexivity.
      * rewrite (run_miss_200 env body w r Hg Htr Hu Hs Hw),
          (run_miss_200 env body w' r Hg' Htr' Hu' Hs); [|congruence].
        path_simpl. split; reflexivity.
    + rewrite (run_miss_other env body w r Hg Htr Hu Hs),
        (run_miss_other env body w' r Hg' Htr' Hu' Hs).
      path_simpl. split; reflexivity.
  - assert (Hu' : upstream_post w' (VROOM_URL env) body = Fails e) by congruence.
    rewrite (run_miss_rejected env body w e Hg Htr Hu),
      (run_miss_rejected env body w' e Hg' Htr' Hu').
    destruct (post_root_catch_effect e) as (line & st & v & Hcatch & _).
    rewrite !Hcatch. cbn [fst snd world_of res]. path_simpl. split; reflexivity.
Qed.

Lemma handle_post_keeps_inputs (env : gmap string string) (body : value) (w : world) (k : string) :
  k <> makeKey body -> same_inputs k w (snd (handle_post env body w)).
Proof.
  intros Hk. unfold same_inputs.
  destruct (handle_post_path env body w); cbn [snd]; repeat split.
  unfold redis_lookup. cbn. now rewrite lookup_insert_ne.
Qed.

(** X17: requests for bodies with different keys do not interfere: after a
    request for A, a request for B gets the same response, makes the same
    calls and finds the same cache entry as without it. *)
Theorem X17_other_bodies_do_not_interfere
  (env : gmap string string) (A B : value) (w : world) :
  makeKey A <> makeKey B ->
  let wA := snd (handle_post env A w) in
  fst (handle_post env B wA) = fst (handle_post env B w) /\
  since wA (snd (handle_post env B wA)) = since w (snd (handle_post env B w)) /\
  redis_lookup wA (makeKey B) = redis_lookup w (makeKey B).
Proof.
  intros Hne. cbv zeta.
  assert (Hin : same_inputs (makeKey B) w (snd (handle_post env A w)))
    by (apply handle_post_keeps_inputs; congruence).
  destruct (handle_post_local env B _ _ Hin) as [Hres Hsince].
  destruct Hin as (_ & _ & _ & Hlook & _). auto.
Qed.

Lemma X17_witness :
  let w := healthy (answer 200 example_solution) in
  let wA := snd (handle_post ∅ (VObj []) w) in
  fst (handle_post ∅ example_body wA) = fst (handle_post ∅ example_body w) /\
  since wA (snd (handle_post ∅ example_body wA)) = since w (snd (handle_post ∅ example_body w)) /\
  redis_lookup wA (makeKey example_body) = redis_lookup w (makeKey example_body).
Proof.
  intros w. apply (X17_other_bodies_do_not_interfere ∅ (VObj []) example_body w).
  vm_compute. discriminate.
Defined.

(** X18: a health check does not change what the proxy answers: after it, any
    POST gets the same response and makes the same calls as before it. *)
Theorem X18_health_does_not_change_answers
  (env : gmap string string) (body : value) (w : world) :
  exists rep w',
    health env w = (Ok rep, w') /\
    fst (handle_post env body w') = fst (handle_post env body w) /\
    since w' (snd (handle_post env body w')) = since w (snd (handle_post env body w)).
Proof.
  unfold health, mbind, M_bind.
  destruct (run_checkOSRMHealth "http://osrm-motorbike:5000" "motorbike" w) as (o1 & -> & _).
  match goal with |- context [checkOSRMHealth ?b ?p ?w0] =>
    destruct (run_checkOSRMHealth b p w0) as (o2 & -> & _) end.
  match goal with |- context [checkVroomHealth ?b ?p ?w0] =>
    destruct (run_checkVroomHealth b p w0) as (v1 & -> & _) end.
  match goal with |- context [checkVroomHealth ?b ?p ?w0] =>
    destruct (run_checkVroomHealth b p w0) as (v2 & -> & _) end.
  match goal with |- context [checkRedisHealth ?e ?w0] =>
    destruct (run_checkRedisHealth e w0) as (rc & -> & _) end.
  eexists _, _. split; [reflexivity|].
  match goal with |- context [handle_post env body ?w0] =>
    assert (Hin : same_inputs (makeKey body) w w0) by (repeat split) end.
  destruct (handle_post_local env body _ _ Hin) as [Hres Hsince]. auto.
Qed.

End FurtherFacts.

Lemma hex_digit_lower (d : Z) : 0 <= d < 16 -> lower_hex (MD5.hex_digit d) = true.
Proof.
  intros H. unfold MD5.hex_digit.
  assert (Hn : (Z.to_nat d < 16)%nat) by lia.
  revert Hn. generalize (Z.to_nat d). intros n Hn.
  do 16 (destruct n as [|n]; [reflexivity|]). lia.
Qed.

Lemma hex_lower (bs : list Z) :
  Forall (fun b => 0 <= b < 256) bs ->
  forallb lower_hex (list_ascii_of_string (MD5.hex bs)) = true.
Proof.
  unfold MD5.hex. rewrite list_ascii_of_string_of_list_ascii.
  induction 1 as [|b bs Hb _ IH]; [reflexivity|].
  cbn [flat_map MD5.hex_byte app forallb]. rewrite IH, !hex_digit_lower; [reflexivity| |].
  - apply Z.mod_pos_bound. lia.
  - split; [apply Z.div_pos; lia | apply Z.div_lt_upper_bound; lia].
Qed.

(** X9: every key is vroom: followed by 32 lowercase hexadecimal digits. *)
Theorem X9_key_is_printable (body : value) :
  exists digest,
    makeKey body = "vroom:" +:+ digest /\
    String.length digest = 32%nat /\
    forallb lower_hex (list_ascii_of_string digest) = true.
Proof.
  exists (MD5.md5_hex (JSON.stringify body)). split; [reflexivity|].
  split; [apply MD5Facts.length_md5_hex|].
  unfold MD5.md5_hex. apply hex_lower, digest_range.
Qed.


